(** * CSV Data Validator: the flat/nested transcoder, the schema flattener
      and the validation pipeline

    A shallow embedding of [csv_importer.py] and [csv_template_generator.py].

    Conventions of the model.
    - A Python [str] is a [string] whose characters are code points below 256
      (the Latin-1 range); [lower], [strip] and [repr] follow CPython on that
      range.
    - A Python [dict] is an association list in insertion order: assigning to
      a key that is present replaces the value where the key stands,
      assigning to a new key appends it.
    - A Python [int] is a [Z]; a [float] is a binary64, given by its sign,
      mantissa and binary exponent, and [float(s)] rounds the decimal of the
      text to the nearest one.
    - A raised exception is the [Err] case of [result]; every function that
      can raise returns a [result].
    - The collaborators the source calls but does not define (the csv reader
      and writer, [json.load], [jsonschema.validate], the schema directory)
      are fields of a record the pipeline takes as an argument. *)

From Stdlib Require Import String Ascii List ZArith NArith Bool Arith Lia.
From Stdlib Require Import DecimalString DecimalNat Sorted.
Import ListNotations.
Open Scope string_scope.
Set Warnings "-register-all".

(* ===================================================================== *)
(** ** Exceptions and the error monad *)

Inductive exn : Type :=
| TypeError
| AttributeError
| RecursionError
| ValueError (msg : string)
| ValidationError (msg : string)
| SchemaError (msg : string)
| OSError (msg : string).

Inductive result (A : Type) : Type :=
| Ok (a : A)
| Err (e : exn).
Arguments Ok {A} a.
Arguments Err {A} e.

Definition bind {A B : Type} (m : result A) (k : A -> result B) : result B :=
  match m with
  | Ok a => k a
  | Err e => Err e
  end.

Notation "x <- m ;; k" := (bind m (fun x => k))
  (at level 61, m at next level, right associativity).

(** A [for] loop whose body may raise: the accumulator is threaded from left
    to right and the first exception ends the loop. *)
Fixpoint for_each {A S : Type} (body : S -> A -> result S) (xs : list A) (s : S)
  : result S :=
  match xs with
  | [] => Ok s
  | x :: xs' => s' <- body s x ;; for_each body xs' s'
  end.

(** [enumerate(xs)] counting from [start]. *)
Fixpoint enumerate_from {A : Type} (start : nat) (xs : list A) : list (nat * A) :=
  match xs with
  | [] => []
  | x :: xs' => (start, x) :: enumerate_from (S start) xs'
  end.

Definition enumerate {A : Type} (xs : list A) : list (nat * A) :=
  enumerate_from 0 xs.

(* ===================================================================== *)
(** ** Python strings *)

Module PyStr.

Definition code (c : ascii) : nat := nat_of_ascii c.

Definition between (lo hi n : nat) : bool := Nat.leb lo n && Nat.leb n hi.

(** [str.isspace] on one character. *)
Definition is_space (c : ascii) : bool :=
  let n := code c in
  between 9 13 n || between 28 32 n || Nat.eqb n 133 || Nat.eqb n 160.

Definition is_digit (c : ascii) : bool := between 48 57 (code c).

(** [str.lower] on one character: A-Z, and the Latin-1 capitals except the
    multiplication sign. *)
Definition lower_char (c : ascii) : ascii :=
  let n := code c in
  if between 65 90 n || (between 192 222 n && negb (Nat.eqb n 215))
  then ascii_of_nat (n + 32)
  else c.

Fixpoint lower (s : string) : string :=
  match s with
  | EmptyString => EmptyString
  | String c s' => String (lower_char c) (lower s')
  end.

Definition is_empty (s : string) : bool :=
  match s with
  | EmptyString => true
  | String _ _ => false
  end.

Fixpoint lstrip (s : string) : string :=
  match s with
  | EmptyString => EmptyString
  | String c s' => if is_space c then lstrip s' else s
  end.

Fixpoint rstrip (s : string) : string :=
  match s with
  | EmptyString => EmptyString
  | String c s' =>
      let r := rstrip s' in
      if is_space c && is_empty r then EmptyString else String c r
  end.

(** [s.strip()] *)
Definition strip (s : string) : string := rstrip (lstrip s).

(** [sub in s] for two strings. *)
Fixpoint contains (s sub : string) : bool :=
  prefix sub s ||
  match s with
  | EmptyString => false
  | String _ s' => contains s' sub
  end.

(** [s.split(sep)] for a one-character separator. *)
Fixpoint split (sep : ascii) (s : string) : list string :=
  match s with
  | EmptyString => [EmptyString]
  | String c s' =>
      if Ascii.eqb c sep then EmptyString :: (split sep s')
      else match split sep s' with
           | [] => [String c EmptyString]
           | piece :: pieces => String c piece :: pieces
           end
  end.

Definition quote : ascii := "034"%char.

Definition startswith_char (c : ascii) (s : string) : bool :=
  match s with
  | EmptyString => false
  | String c' _ => Ascii.eqb c' c
  end.

Fixpoint endswith_char (c : ascii) (s : string) : bool :=
  match s with
  | EmptyString => false
  | String c' EmptyString => Ascii.eqb c' c
  | String _ s' => endswith_char c s'
  end.

Fixpoint drop_last (s : string) : string :=
  match s with
  | EmptyString => EmptyString
  | String _ EmptyString => EmptyString
  | String c s' => String c (drop_last s')
  end.

(** [s[1:-1]] *)
Definition slice_1_m1 (s : string) : string :=
  match s with
  | EmptyString => EmptyString
  | String _ s' => drop_last s'
  end.

Fixpoint join (sep : string) (pieces : list string) : string :=
  match pieces with
  | [] => EmptyString
  | [p] => p
  | p :: ps => p ++ sep ++ join sep ps
  end.

(** *** [repr] of a string and of a list of strings *)

Definition hex_digit (n : nat) : ascii :=
  if Nat.ltb n 10 then ascii_of_nat (48 + n) else ascii_of_nat (87 + n).

Definition printable (c : ascii) : bool :=
  let n := code c in
  between 32 126 n || (between 161 255 n && negb (Nat.eqb n 173)).

Definition repr_char (q : ascii) (c : ascii) : string :=
  if Ascii.eqb c q || Ascii.eqb c "\"%char then String "\"%char (String c EmptyString)
  else if Ascii.eqb c "009"%char then "\t"
  else if Ascii.eqb c "010"%char then "\n"
  else if Ascii.eqb c "013"%char then "\r"
  else if printable c then String c EmptyString
  else String "\"%char
         (String "x"%char
            (String (hex_digit (code c / 16))
               (String (hex_digit (code c mod 16)) EmptyString))).

Fixpoint repr_body (q : ascii) (s : string) : string :=
  match s with
  | EmptyString => EmptyString
  | String c s' => repr_char q c ++ repr_body q s'
  end.

(** Single quotes, unless the text holds a single quote and no double
    quote. *)
Definition repr (s : string) : string :=
  let q := if contains s "'" && negb (contains s (String quote EmptyString))
           then quote else "'"%char in
  String q (repr_body q s ++ String q EmptyString).

Definition repr_list (l : list string) : string :=
  "[" ++ join ", " (map repr l) ++ "]".

End PyStr.

(* ===================================================================== *)
(** ** Python numbers from text: [int(s)] and [float(s)] *)

(** A float is a binary64: [FBin neg mant exp2] is [(-1)^neg * mant *
    2^exp2] with [mant < 2^53] and [-1074 <= exp2 <= 971], and [2^52 <= mant]
    unless [exp2 = -1074] (zero and the subnormal numbers), so that a number
    has one form. *)
Inductive pyfloat : Type :=
| FNan
| FInf (neg : bool)
| FBin (neg : bool) (mant : N) (exp2 : Z).

Module PyNum.
Import PyStr.

(** The blanks [int] and [float] skip around a number: those of C's
    [isspace], and the blanks beyond ASCII, which CPython turns into spaces
    before it reads the number. The separators U+001C to U+001F, which
    [str.strip] removes, are not among them. *)
Definition is_blank (c : ascii) : bool :=
  let n := code c in
  between 9 13 n || Nat.eqb n 32 || Nat.eqb n 133 || Nat.eqb n 160.

Fixpoint lskip (s : string) : string :=
  match s with
  | EmptyString => EmptyString
  | String c s' => if is_blank c then lskip s' else s
  end.

Fixpoint rskip (s : string) : string :=
  match s with
  | EmptyString => EmptyString
  | String c s' =>
      let r := rskip s' in
      if is_blank c && is_empty r then EmptyString else String c r
  end.

Definition trim (s : string) : string := rskip (lskip s).

(** The most digits [int] reads from text (CPython's default limit). *)
Definition max_str_digits : nat := 4300.

(** Underscores are accepted between two digits only; they are dropped
    before the number is read ([prev] is the character just before). *)
Fixpoint remove_underscores (prev : option ascii) (s : string) : option string :=
  match s with
  | EmptyString =>
      match prev with
      | Some c => if Ascii.eqb c "_" then None else Some EmptyString
      | None => Some EmptyString
      end
  | String c s' =>
      if Ascii.eqb c "_" then
        match prev with
        | Some p => if is_digit p then remove_underscores (Some c) s' else None
        | None => None
        end
      else
        let after_underscore :=
          match prev with
          | Some p => Ascii.eqb p "_"
          | None => false
          end in
        if after_underscore && negb (is_digit c) then None
        else option_map (String c) (remove_underscores (Some c) s')
  end.

(** The leading digits of [s] and what follows them. *)
Fixpoint take_digits (s : string) : string * string :=
  match s with
  | EmptyString => (EmptyString, EmptyString)
  | String c s' =>
      if is_digit c
      then let '(ds, rest) := take_digits s' in (String c ds, rest)
      else (EmptyString, s)
  end.

Definition digit_value (c : ascii) : N := N.of_nat (code c - 48).

Fixpoint digits_value (acc : N) (ds : string) : N :=
  match ds with
  | EmptyString => acc
  | String c ds' => digits_value (10 * acc + digit_value c) ds'
  end.

(** An optional sign: is it a minus, and the text after it. *)
Definition take_sign (s : string) : bool * string :=
  match s with
  | String c s' =>
      if Ascii.eqb c "-" then (true, s')
      else if Ascii.eqb c "+" then (false, s')
      else (false, s)
  | EmptyString => (false, s)
  end.

(** [int(s)] in base 10; [None] stands for [ValueError]. *)
Definition py_int (s : string) : option Z :=
  match remove_underscores None (trim s) with
  | None => None
  | Some t =>
      let '(neg, body) := take_sign t in
      let '(ds, rest) := take_digits body in
      if is_empty ds || negb (is_empty rest)
         || Nat.ltb max_str_digits (String.length ds) then None
      else let n := Z.of_N (digits_value 0 ds) in
           Some (if neg then Z.opp n else n)
  end.

(** The exponent part, if any: [e] or [E], an optional sign, digits. *)
Definition take_exponent (s : string) : option Z :=
  match s with
  | EmptyString => Some 0%Z
  | String c s' =>
      if Ascii.eqb (lower_char c) "e" then
        let '(neg, body) := take_sign s' in
        let '(ds, rest) := take_digits body in
        if is_empty ds || negb (is_empty rest) then None
        else let n := Z.of_N (digits_value 0 ds) in
             Some (if neg then Z.opp n else n)
      else None
  end.

(** [a / b] rounded to the nearest integer, ties to the even one. *)
Definition round_half_even (a b : Z) : Z :=
  let n := Z.div a b in
  let r := Z.modulo a b in
  match Z.compare (2 * r) b with
  | Lt => n
  | Gt => Z.succ n
  | Eq => if Z.even n then n else Z.succ n
  end.

(** [p / q / 2^k] as a fraction of integers. *)
Definition scaled (p q k : Z) : Z * Z :=
  if Z.leb 0 k then (p, q * Z.pow 2 k)%Z else (p * Z.pow 2 (- k), q)%Z.

(** The binary64 nearest to [mant * 10^exp10] (ties to even), as CPython's
    [float] reads a decimal: beyond the largest finite number it is an
    infinity, below the smallest subnormal number a zero. *)
Definition binary64 (neg : bool) (mant : N) (exp10 : Z) : pyfloat :=
  if N.eqb mant 0 then FBin neg 0 (-1074)
  else
    let '(p, q) :=
      if Z.leb 0 exp10 then (Z.of_N mant * Z.pow 10 exp10, 1)%Z
      else (Z.of_N mant, Z.pow 10 (- exp10))%Z in
    let k0 := Z.max (Z.log2 p - Z.log2 q - 52) (-1074) in
    let '(a0, b0) := scaled p q k0 in
    let k := if Z.ltb (Z.div a0 b0) (Z.pow 2 52) && Z.ltb (-1074) k0
             then Z.pred k0 else k0 in
    let '(a, b) := scaled p q k in
    let n := round_half_even a b in
    let '(n', k') := if Z.eqb n (Z.pow 2 53) then (Z.pow 2 52, Z.succ k) else (n, k) in
    if Z.ltb 971 k' then FInf neg else FBin neg (Z.to_N n') k'.

(** [float(s)]; [None] stands for [ValueError]. *)
Definition py_float (s : string) : option pyfloat :=
  match remove_underscores None (trim s) with
  | None => None
  | Some t =>
      let '(neg, body) := take_sign t in
      let word := lower body in
      if String.eqb word "inf" || String.eqb word "infinity" then Some (FInf neg)
      else if String.eqb word "nan" then Some FNan
      else
        let '(int_part, rest) := take_digits body in
        let '(frac_part, rest') :=
          match rest with
          | String c r => if Ascii.eqb c "." then take_digits r else (EmptyString, rest)
          | EmptyString => (EmptyString, rest)
          end in
        if is_empty int_part && is_empty frac_part then None
        else
          match take_exponent rest' with
          | None => None
          | Some e =>
              Some (binary64 neg (digits_value 0 (int_part ++ frac_part))
                      (e - Z.of_nat (String.length frac_part)))
          end
  end.

End PyNum.

(* ===================================================================== *)
(** ** Python dicts with string keys, in insertion order *)

Module Dict.

Definition dict (V : Type) : Type := list (string * V).

(** [d.get(k)] *)
Fixpoint get {V : Type} (k : string) (d : dict V) : option V :=
  match d with
  | [] => None
  | (k', v) :: d' => if String.eqb k' k then Some v else get k d'
  end.

(** [k in d] *)
Definition mem {V : Type} (k : string) (d : dict V) : bool :=
  match get k d with
  | Some _ => true
  | None => false
  end.

(** [d[k] = v] *)
Fixpoint set {V : Type} (k : string) (v : V) (d : dict V) : dict V :=
  match d with
  | [] => [(k, v)]
  | (k', v') :: d' =>
      if String.eqb k' k then (k', v) :: d' else (k', v') :: set k v d'
  end.

(** [list(d.keys())] *)
Definition keys {V : Type} (d : dict V) : list string := map fst d.

(** [{**d1, **d2}] *)
Definition merge {V : Type} (d1 d2 : dict V) : dict V :=
  fold_left (fun acc kv => set (fst kv) (snd kv) acc) d2 d1.

(** A dict literal or a comprehension: the pairs are assigned in order. *)
Definition of_pairs {V : Type} (kvs : list (string * V)) : dict V :=
  merge [] kvs.

End Dict.

(* ===================================================================== *)
(** ** csv_importer.py *)

(** The values a nested record holds. *)
Inductive pyval : Type :=
| VNone
| VBool (b : bool)
| VInt (z : Z)
| VFloat (f : pyfloat)
| VStr (s : string)
| VList (items : list string)
| VDict (d : list (string * pyval)).

(** Parsed JSON, as [json.load] returns it. *)
Inductive json : Type :=
| JNull
| JBool (b : bool)
| JInt (z : Z)
| JFloat (f : pyfloat)
| JStr (s : string)
| JArr (elems : list json)
| JObj (d : list (string * json)).

(* ===================================================================== *)
(** ** [str] and [repr] of values, as an f-string prints them *)

Module PyFmt.

(** [str(n)] for an int. *)
Definition str_nat (n : nat) : string := NilZero.string_of_uint (Nat.to_uint n).

Definition str_int (z : Z) : string := NilZero.string_of_int (Z.to_int z).

Definition newline : string := String "010"%char EmptyString.

(** [repr(v)]; how a float prints is taken as given ([repr_float]). *)
Fixpoint repr_value (repr_float : pyfloat -> string) (v : pyval) : string :=
  match v with
  | VNone => "None"
  | VBool true => "True"
  | VBool false => "False"
  | VInt z => str_int z
  | VFloat f => repr_float f
  | VStr s => PyStr.repr s
  | VList items => PyStr.repr_list items
  | VDict d =>
      "{" ++ PyStr.join ", "
               (map (fun kv => PyStr.repr (fst kv) ++ ": " ++ repr_value repr_float (snd kv))
                    d)
          ++ "}"
  end.

(** [str(v)]: a text prints as it is, anything else as its [repr]. *)
Definition str_value (repr_float : pyfloat -> string) (v : pyval) : string :=
  match v with
  | VStr s => s
  | _ => repr_value repr_float v
  end.

End PyFmt.

Module csv_importer.
Import PyStr PyNum.

(** A cell of a row as [csv.DictReader] yields it: text, [None] for a
    column the line is too short for, or the list of the surplus values of
    a line that is too long. *)
Inductive cell : Type :=
| CellStr (s : string)
| CellNone
| CellRest (l : list string).

(** What the importer takes from outside: the schema files the directory
    holds (stem and path, in the order [glob] finds them), the rows
    [csv.DictReader] reads from a file, [json.load] on a schema file, and
    [jsonschema.validate]. *)
Record world : Type := {
  schema_files : list (string * string);
  dict_reader : string -> result (list (list (string * cell)));
  json_load : string -> result json;
  validate : pyval -> json -> result unit
}.

Definition get_available_schemas (w : world) : Dict.dict string :=
  fold_left (fun schemas file => Dict.set (fst file) (snd file) schemas)
            (schema_files w) [].

(** [{k: v for k, v in row.items() if v.strip()}]: [strip] exists on text
    only. *)
Fixpoint clean_row (row : list (string * cell)) : result (list (string * string)) :=
  match row with
  | [] => Ok []
  | (k, CellStr v) :: row' =>
      rest <- clean_row row' ;;
      Ok (if is_empty (strip v) then rest else (k, v) :: rest)
  | (_, _) :: _ => Err AttributeError
  end.

Fixpoint clean_rows (rows : list (list (string * cell)))
  : result (list (Dict.dict string)) :=
  match rows with
  | [] => Ok []
  | row :: rows' =>
      cleaned_row <- clean_row row ;;
      data <- clean_rows rows' ;;
      Ok (Dict.of_pairs cleaned_row :: data)
  end.

Definition read_csv_file (w : world) (file_path : string)
  : result (list (Dict.dict string)) :=
  rows <- dict_reader w file_path ;;
  clean_rows rows.

Definition list_field_indicators : list string :=
  ["tags"; "features"; "names"; "ids"].

Definition is_list_field (key : string) : bool :=
  existsb (fun indicator => contains (lower key) indicator) list_field_indicators.

Definition process_value (value : string) (key : string) : pyval :=
  if String.eqb value "" then VNone
  else if existsb (String.eqb (lower value)) ["true"; "yes"; "1"] then VBool true
  else if existsb (String.eqb (lower value)) ["false"; "no"; "0"] then VBool false
  else if contains value "," && is_list_field key then
    let value :=
      if startswith_char quote value && endswith_char quote value
      then slice_1_m1 value else value in
    VList (map strip (split "," value))
  else if contains value "." then
    match py_float value with
    | Some f => VFloat f
    | None => VStr value
    end
  else
    match py_int value with
    | Some z => VInt z
    | None => VStr value
    end.

(** The walk of [transform_flat_to_nested] along [parts]: every part but
    the last is created as [{}] when absent and entered; the last one is
    assigned [v]. Entering or assigning into anything but a dict raises
    [TypeError] ([in], the subscript and the item assignment all refuse a
    number, a boolean or [None], and refuse a string key on text and on a
    list). The inner dicts are reachable from their parent only, so the
    in-place update is the rebuilt parent. *)
Fixpoint assign_path (parts : list string) (v : pyval) (current : Dict.dict pyval)
  : result (Dict.dict pyval) :=
  match parts with
  | [] => Ok current
  | [last] => Ok (Dict.set last v current)
  | part :: rest =>
      let current :=
        if negb (Dict.mem part current) then Dict.set part (VDict []) current
        else current in
      match Dict.get part current with
      | Some (VDict inner) =>
          inner' <- assign_path rest v inner ;;
          Ok (Dict.set part (VDict inner') current)
      | _ => Err TypeError
      end
  end.

Definition transform_step (nested_dict : Dict.dict pyval) (item : string * string)
  : result (Dict.dict pyval) :=
  let '(key, value) := item in
  if contains key "." then
    let parts := split "." key in
    assign_path parts (process_value value (last parts "")) nested_dict
  else
    Ok (Dict.set key (process_value value key) nested_dict).

Definition transform_flat_to_nested (flat_dict : Dict.dict string)
  : result (Dict.dict pyval) :=
  for_each transform_step flat_dict [].

(** One entry of [valid_items] or [invalid_items]; [item_error] is the
    ["error"] key, which the entries of [valid_items] do not have. *)
Record outcome : Type := {
  item_row : nat;
  item_id : pyval;
  item_error : option string;
  item_data : Dict.dict pyval
}.

(** The [validation_results] dict. *)
Record report : Type := {
  total : nat;
  valid : nat;
  invalid : nat;
  valid_items : list outcome;
  invalid_items : list outcome
}.

Definition load_schema (w : world) (schema_path : string) : result json :=
  json_load w schema_path.

(** Only [ValidationError] is caught; its [str(e)] is the text it
    carries. *)
Definition validate_against_schema (w : world) (data : Dict.dict pyval)
           (schema_path : string) : result (bool * option string) :=
  match (schema <- load_schema w schema_path ;; validate w (VDict data) schema) with
  | Ok _ => Ok (true, None)
  | Err (ValidationError msg) => Ok (false, Some msg)
  | Err e => Err e
  end.

(** [nested_data.get("id", "unknown")] *)
Definition get_id (nested_data : Dict.dict pyval) : pyval :=
  match Dict.get "id" nested_data with
  | Some v => v
  | None => VStr "unknown"
  end.

(** The body of the loop over [enumerate(csv_data)]. *)
Definition validate_row (w : world) (schema_path : string)
           (validation_results : report) (entry : nat * Dict.dict string)
  : result report :=
  let '(i, row) := entry in
  nested_data <- transform_flat_to_nested row ;;
  checked <- validate_against_schema w nested_data schema_path ;;
  let '(is_valid, error_message) := checked in
  if is_valid then
    Ok {| total := total validation_results;
          valid := valid validation_results + 1;
          invalid := invalid validation_results;
          valid_items :=
            valid_items validation_results ++
            [{| item_row := i + 2; item_id := get_id nested_data;
                item_error := None; item_data := nested_data |}];
          invalid_items := invalid_items validation_results |}
  else
    Ok {| total := total validation_results;
          valid := valid validation_results;
          invalid := invalid validation_results + 1;
          valid_items := valid_items validation_results;
          invalid_items :=
            invalid_items validation_results ++
            [{| item_row := i + 2; item_id := get_id nested_data;
                item_error := error_message; item_data := nested_data |}] |}.

Definition unknown_schema_message (schema_name : string)
           (available_schemas : Dict.dict string) : string :=
  "Unknown schema: " ++ schema_name ++ ". Available schemas: "
    ++ repr_list (Dict.keys available_schemas).

Definition import_and_validate_csv (w : world) (file_path schema_name : string)
  : result report :=
  let available_schemas := get_available_schemas w in
  match Dict.get schema_name available_schemas with
  | None => Err (ValueError (unknown_schema_message schema_name available_schemas))
  | Some schema_path =>
      csv_data <- read_csv_file w file_path ;;
      let validation_results :=
        {| total := length csv_data; valid := 0; invalid := 0;
           valid_items := []; invalid_items := [] |} in
      for_each (validate_row w schema_path) (enumerate csv_data) validation_results
  end.

(** The lines [get_validation_report] appends for one invalid entry; [None]
    stands for the [KeyError] an entry without the ["error"] key raises. *)
Definition entry_lines (repr_float : pyfloat -> string) (item : outcome)
  : option (list string) :=
  match item_error item with
  | Some error =>
      Some ["Row " ++ PyFmt.str_nat (item_row item) ++ " (ID: "
              ++ PyFmt.str_value repr_float (item_id item) ++ ")";
            "Error: " ++ error;
            ""]
  | None => None
  end.

Fixpoint entries_lines (repr_float : pyfloat -> string) (items : list outcome)
  : option (list string) :=
  match items with
  | [] => Some []
  | item :: items' =>
      match entry_lines repr_float item, entries_lines repr_float items' with
      | Some lines, Some lines' => Some (lines ++ lines')%list
      | _, _ => None
      end
  end.

(** The list [report] before it is joined. *)
Definition report_lines (repr_float : pyfloat -> string) (validation_results : report)
  : option (list string) :=
  let report :=
    ["Validation Report";
     "==================";
     "Total rows: " ++ PyFmt.str_nat (total validation_results);
     "Valid: " ++ PyFmt.str_nat (valid validation_results);
     "Invalid: " ++ PyFmt.str_nat (invalid validation_results);
     ""] in
  if Nat.ltb 0 (invalid validation_results) then
    match entries_lines repr_float (invalid_items validation_results) with
    | Some lines => Some (report ++ ["Invalid Entries"; "--------------"] ++ lines)%list
    | None => None
    end
  else Some report.

Definition get_validation_report (repr_float : pyfloat -> string)
           (validation_results : report) : option string :=
  option_map (join PyFmt.newline) (report_lines repr_float validation_results).

End csv_importer.

(* ===================================================================== *)
(** ** csv_template_generator.py *)

Module csv_template_generator.
Import PyStr.

(** What the generator takes from outside: the schema files of the
    directory, [json.load] on a schema file, and the text [csv.DictWriter]
    writes for a list of rows. *)
Record world : Type := {
  schema_files : list (string * string);
  json_load : string -> result json;
  csv_text : list (list string) -> string
}.

Definition get_available_schemas (w : world) : Dict.dict string :=
  fold_left (fun schemas file => Dict.set (fst file) (snd file) schemas)
            (schema_files w) [].

Definition _load_schema (w : world) (schema_path : string) : result json :=
  json_load w schema_path.

(** *** The operators the flattener applies to parsed JSON *)

Definition is_str (s : string) (v : json) : bool :=
  match v with
  | JStr s' => String.eqb s' s
  | _ => false
  end.

(** [k in container]: a key of a dict, an element of a list, a substring
    of a text; anything else is not a container. *)
Definition py_in (k : string) (container : json) : result bool :=
  match container with
  | JObj d => Ok (Dict.mem k d)
  | JArr elems => Ok (existsb (is_str k) elems)
  | JStr s => Ok (contains s k)
  | _ => Err TypeError
  end.

(** [o.get(k)]: only a dict has [get]. *)
Definition py_get (o : json) (k : string) : result (option json) :=
  match o with
  | JObj d => Ok (Dict.get k d)
  | _ => Err AttributeError
  end.

(** [o.get(k, {})] *)
Definition py_get_or_empty (o : json) (k : string) : result json :=
  found <- py_get o k ;;
  Ok (match found with Some v => v | None => JObj [] end).

(** [o.items()]: only a dict has [items]. *)
Definition py_items (o : json) : result (list (string * json)) :=
  match o with
  | JObj d => Ok d
  | _ => Err AttributeError
  end.

(** [k in v and v.get('type') == ty]; the right operand is evaluated only
    when the left one holds. *)
Definition has_key_and_type (k ty : string) (v : json) : result bool :=
  present <- py_in k v ;;
  if present then
    declared <- py_get v "type" ;;
    Ok (match declared with Some t => is_str ty t | None => false end)
  else Ok false.

Definition days : list string :=
  ["Monday"; "Tuesday"; "Wednesday"; "Thursday"; "Friday"; "Saturday"; "Sunday"].

Definition time_leaf : json :=
  JObj [("type", JStr "string"); ("format", JStr "time")].

(** The body of the loop over [properties.items()]; [recur] is the
    recursive call. *)
Definition flatten_property
           (recur : json -> string -> Dict.dict json -> result (Dict.dict json))
           (parent_key : string) (flattened : Dict.dict json)
           (property : string * json) : result (Dict.dict json) :=
  let '(key, value) := property in
  let new_key := if is_empty parent_key then key else parent_key ++ "." ++ key in
  is_object <- has_key_and_type "properties" "object" value ;;
  if is_object then recur value new_key flattened
  else
    is_array <- has_key_and_type "items" "array" value ;;
    if is_array then
      items <- py_get_or_empty value "items" ;;
      items_object <- has_key_and_type "properties" "object" items ;;
      if items_object then
        item_properties <- py_get_or_empty items "properties" ;;
        item_entries <- py_items item_properties ;;
        Ok (fold_left
              (fun flattened item =>
                 Dict.set (new_key ++ "." ++ fst item) (snd item) flattened)
              item_entries flattened)
      else if String.eqb key "openingHours" then
        Ok (fold_left
              (fun flattened day =>
                 Dict.set (new_key ++ "." ++ day ++ ".closes") time_leaf
                   (Dict.set (new_key ++ "." ++ day ++ ".opens") time_leaf flattened))
              days flattened)
      else Ok (Dict.set new_key value flattened)
    else Ok (Dict.set new_key value flattened).

(** [_flatten_schema] with the number of nested calls it may still make. *)
Fixpoint flatten_within (calls : nat) (schema : json) (parent_key : string)
         (flattened : Dict.dict json) : result (Dict.dict json) :=
  match calls with
  | O => Err RecursionError
  | S calls' =>
      properties <- py_get_or_empty schema "properties" ;;
      entries <- py_items properties ;;
      for_each (flatten_property (flatten_within calls') parent_key) entries flattened
  end.

(** The nesting height of a JSON value. *)
Fixpoint json_height (j : json) : nat :=
  match j with
  | JArr elems => S (fold_right (fun e h => Nat.max (json_height e) h) 0 elems)
  | JObj d => S (fold_right (fun kv h => Nat.max (json_height (snd kv)) h) 0 d)
  | _ => 0
  end.

(** A call on [schema] nests no deeper than [schema] itself, so this many
    calls are always enough ([flatten_within_enough] below). *)
Definition _flatten_schema (schema : json) (parent_key : string)
           (flattened : Dict.dict json) : result (Dict.dict json) :=
  flatten_within (S (json_height schema)) schema parent_key flattened.

Definition _schema_to_csv_headers (schema : Dict.dict json) : list string :=
  Dict.keys schema.

Definition c_cedilla : string := String "231"%char "".
Definition e_acute : string := String "233"%char "".

Definition common_samples (schema_name : string) : Dict.dict string :=
  Dict.of_pairs
    [("sourceId", "partner123");
     ("id", schema_name ++ "123");
     ("nameFr", "Nom en fran" ++ c_cedilla ++ "ais");
     ("nameEn", "Name in English");
     ("descriptionFr", "Description en fran" ++ c_cedilla ++ "ais");
     ("descriptionEn", "Description in English")].

Definition event_samples : Dict.dict string :=
  Dict.of_pairs
    [("status", "scheduled");
     ("startDate", "2023-08-15");
     ("endDate", "2023-08-15");
     ("startTime", "19:30");
     ("endTime", "22:00");
     ("placeId", "place123");
     ("price.type", "range");
     ("price.currency", "CAD");
     ("price.minValue", "25.00");
     ("price.maxValue", "75.00");
     ("categoryTags", "music,concert,jazz");
     ("performerNames", "John Smith Quartet,Jane Doe");
     ("isAccessible", "true");
     ("accessibilityFeatures", "Wheelchair Access,Assistive Listening Systems");
     ("images.url", "https://example.com/images/event.jpg");
     ("images.altText", "Event image description");
     ("images.width", "1200");
     ("images.height", "800");
     ("ticketPurchaseUrl", "https://example.com/tickets")].

Definition place_samples : Dict.dict string :=
  Dict.of_pairs
    [("locationType", "Place");
     ("containedInPlaceStatus", "false");
     ("addressStreet", "123 Main Street");
     ("addressCity", "Montr" ++ e_acute ++ "al");
     ("addressRegion", "QC");
     ("addressPostalCode", "H2X1Z4");
     ("addressCountry", "CAN");
     ("latitude", "45.5088");
     ("longitude", "-73.5878");
     ("capacity", "500");
     ("phoneNumber", "+15141234567");
     ("emailAddress", "info@example.com");
     ("websiteUrl", "https://example.com");
     ("openingHours.Monday.opens", "09:00");
     ("openingHours.Monday.closes", "17:00");
     ("openingHours.Tuesday.opens", "09:00");
     ("openingHours.Tuesday.closes", "17:00");
     ("openingHours.Wednesday.opens", "09:00");
     ("openingHours.Wednesday.closes", "17:00");
     ("openingHours.Thursday.opens", "09:00");
     ("openingHours.Thursday.closes", "21:00");
     ("openingHours.Friday.opens", "09:00");
     ("openingHours.Friday.closes", "21:00");
     ("openingHours.Saturday.opens", "10:00");
     ("openingHours.Saturday.closes", "21:00");
     ("openingHours.Sunday.opens", "10:00");
     ("openingHours.Sunday.closes", "17:00");
     ("accessibilityFeatures",
      "Wheelchair Access,Accessible Restrooms,Assistive Listening Systems");
     ("images.url", "https://example.com/images/place.jpg");
     ("images.altText", "Exterior view of the location");
     ("images.width", "1200");
     ("images.height", "800")].

Definition sample_data (schema_name : string) : Dict.dict string :=
  let schema_samples :=
    if String.eqb schema_name "event" then event_samples
    else if String.eqb schema_name "place" then place_samples
    else [] in
  Dict.merge (common_samples schema_name) schema_samples.

(** [sample_data.get(header, "")] *)
Definition sample_value (schema_name header : string) : string :=
  match Dict.get header (sample_data schema_name) with
  | Some v => v
  | None => ""
  end.

Definition _create_sample_row (headers : list string) (schema_name : string)
  : Dict.dict string :=
  Dict.of_pairs (map (fun header => (header, sample_value schema_name header)) headers).

(** The headers and the sample row [_generate_csv_template] computes from
    a loaded schema, before it writes them. *)
Definition template_parts (schema : json) (schema_name : string)
  : result (list string * Dict.dict string) :=
  flattened_schema <- _flatten_schema schema "" [] ;;
  let headers := _schema_to_csv_headers flattened_schema in
  let sample_row := _create_sample_row headers schema_name in
  Ok (headers, sample_row).

(** The row [DictWriter.writerow] hands to the writer:
    [rowdict.get(key, "")] for each field name. No key of the sample row is
    outside the field names, so the writer's check for extra keys passes. *)
Definition row_values (fieldnames : list string) (rowdict : Dict.dict string)
  : list string :=
  map (fun key => match Dict.get key rowdict with Some v => v | None => "" end)
      fieldnames.

Definition _generate_csv_template (w : world) (schema_path schema_name : string)
  : result string :=
  schema <- _load_schema w schema_path ;;
  parts <- template_parts schema schema_name ;;
  let '(headers, sample_row) := parts in
  Ok (csv_text w [headers; row_values headers sample_row]).

Definition unknown_schema_message (schema_name : string)
           (available_schemas : Dict.dict string) : string :=
  "Unknown schema: " ++ schema_name ++ ". Available schemas: "
    ++ repr_list (Dict.keys available_schemas).

Definition generate_template (w : world) (schema_name : string) : result string :=
  let available_schemas := get_available_schemas w in
  match Dict.get schema_name available_schemas with
  | None => Err (ValueError (unknown_schema_message schema_name available_schemas))
  | Some schema_path => _generate_csv_template w schema_path schema_name
  end.

(** The wrappers kept for backwards compatibility. *)
Definition generate_event_template (w : world) : result string :=
  generate_template w "event".

Definition generate_place_template (w : world) : result string :=
  generate_template w "place".

End csv_template_generator.





(* ===================================================================== *)
(** ** Views used by the proofs *)

Module View.
Import csv_importer.


(** Reading a nested record along a path. *)
Fixpoint lookup_path (parts : list string) (d : Dict.dict pyval) : option pyval :=
  match parts with
  | [] => None
  | [last] => Dict.get last d
  | part :: rest =>
      match Dict.get part d with
      | Some (VDict inner) => lookup_path rest inner
      | _ => None
      end
  end.

(** The body of the [try] block in [validate_against_schema]. *)
Definition run_validator (w : world) (schema_path : string) (data : Dict.dict pyval)
  : result unit :=
  schema <- load_schema w schema_path ;; validate w (VDict data) schema.

(** What one row adds to the report: whether it is valid, and its entry. *)
Definition judge (w : world) (schema_path : string) (entry : nat * Dict.dict string)
  : result (bool * outcome) :=
  let '(i, row) := entry in
  nested_data <- transform_flat_to_nested row ;;
  checked <- validate_against_schema w nested_data schema_path ;;
  Ok (fst checked,
      {| item_row := i + 2; item_id := get_id nested_data;
         item_error := snd checked; item_data := nested_data |}).

Definition record_outcome (r : report) (vo : bool * outcome) : report :=
  if fst vo then
    {| total := total r; valid := valid r + 1; invalid := invalid r;
       valid_items := valid_items r ++ [snd vo];
       invalid_items := invalid_items r |}
  else
    {| total := total r; valid := valid r; invalid := invalid r + 1;
       valid_items := valid_items r;
       invalid_items := invalid_items r ++ [snd vo] |}.

Fixpoint map_result {A B : Type} (f : A -> result B) (xs : list A) : result (list B) :=
  match xs with
  | [] => Ok []
  | x :: xs' => y <- f x ;; ys <- map_result f xs' ;; Ok (y :: ys)
  end.

(** The report before the first row. *)
Definition fresh_report (csv_data : list (Dict.dict string)) : report :=
  {| total := length csv_data; valid := 0; invalid := 0;
     valid_items := []; invalid_items := [] |}.

(** How many entries of [items] carry the row number [n]. *)
Definition count_row (n : nat) (items : list outcome) : nat :=
  count_occ Nat.eq_dec (map item_row items) n.

(** An array whose items are no object schema: [value] has the key
    [items] and the type ["array"], and its items do not pass the test for
    an object with properties. *)
Definition array_of_leaves (value : json) : Prop :=
  csv_template_generator.has_key_and_type "items" "array" value = Ok true
  /\ exists items,
       csv_template_generator.py_get_or_empty value "items" = Ok items
       /\ csv_template_generator.has_key_and_type "properties" "object" items = Ok false.

(** The loop of the flattener comes to the property [key] with the schema
    [value] at the path [new_key]: the property is one of [schema], or one of
    an object with properties, on which the flattener calls itself with the
    path of that object. The properties of the items of an array are not
    among them: the loop that assigns them looks at none. *)
Inductive visits : json -> string -> string -> json -> string -> Prop :=
| visits_property schema parent_key entries key value :
    csv_template_generator.py_get_or_empty schema "properties" = Ok (JObj entries) ->
    In (key, value) entries ->
    visits schema parent_key key value
           (if PyStr.is_empty parent_key then key else parent_key ++ "." ++ key)
| visits_nested schema parent_key entries name object key value new_key :
    csv_template_generator.py_get_or_empty schema "properties" = Ok (JObj entries) ->
    In (name, object) entries ->
    csv_template_generator.has_key_and_type "properties" "object" object = Ok true ->
    visits object
           (if PyStr.is_empty parent_key then name else parent_key ++ "." ++ name)
           key value new_key ->
    visits schema parent_key key value new_key.

(** The two paths of a day under the path [new_key], and the paths the
    opening-hours case assigns. *)
Definition day_paths (new_key day : string) : list string :=
  [new_key ++ "." ++ day ++ ".opens"; new_key ++ "." ++ day ++ ".closes"].

Definition opening_hours_paths (new_key : string) : list string :=
  flat_map (day_paths new_key) csv_template_generator.days.

(** The body of the loop over the days. *)
Definition hours_step (new_key : string) (flattened : Dict.dict json) (day : string)
  : Dict.dict json :=
  Dict.set (new_key ++ "." ++ day ++ ".closes") csv_template_generator.time_leaf
    (Dict.set (new_key ++ "." ++ day ++ ".opens") csv_template_generator.time_leaf
       flattened).

End View.

(* ===================================================================== *)
(** ** Sample inputs *)

Module Sample.
Import csv_importer.

(** A validator that asks for the field [nameFr] and nothing else. *)
Definition requires_name (instance : pyval) (schema : json) : result unit :=
  match instance with
  | VDict d =>
      if Dict.mem "nameFr" d then Ok tt
      else Err (ValidationError "'nameFr' is a required property")
  | _ => Err (ValidationError "not of type 'object'")
  end.

Definition line (cells : list (string * string)) : list (string * cell) :=
  map (fun kv => (fst kv, CellStr (snd kv))) cells.

Definition events_csv : list (list (string * cell)) :=
  [line [("sourceId", "partner123"); ("id", "event123"); ("nameFr", "Valid Event");
         ("descriptionFr", "Valid Description"); ("status", "Scheduled")];
   line [("sourceId", "partner123"); ("id", "event456"); ("nameFr", "");
         ("descriptionFr", "Invalid Description"); ("status", "InvalidStatus")]].

(** The first line sets [price] and then [price.currency]. *)
Definition clash_csv : list (list (string * cell)) :=
  [line [("id", "event1"); ("nameFr", "First"); ("price", "5"); ("price.currency", "CAD")];
   line [("id", "event2"); ("nameFr", "Second")]].

Definition files (file_path : string) : result (list (list (string * cell))) :=
  if String.eqb file_path "events.csv" then Ok events_csv
  else if String.eqb file_path "clash.csv" then Ok clash_csv
  else Err (OSError "No such file or directory").

Definition world : csv_importer.world :=
  {| schema_files := [("event", "schemas/v1/event.json");
                      ("place", "schemas/v1/place.json")];
     dict_reader := files;
     json_load := fun _ => Ok (JObj [("required", JArr [JStr "nameFr"])]);
     validate := requires_name |}.

(** A schema with an object, an array of objects, opening hours given as an
    array of strings, and a plain array. *)
Definition place_schema : json :=
  JObj [("type", JStr "object");
        ("properties", JObj [
           ("id", JObj [("type", JStr "string")]);
           ("address", JObj [("type", JStr "object");
                             ("properties", JObj [("city", JObj [("type", JStr "string")])])]);
           ("images", JObj [("type", JStr "array");
                            ("items", JObj [("type", JStr "object");
                                            ("properties",
                                             JObj [("url", JObj [("type", JStr "string")])])])]);
           ("openingHours", JObj [("type", JStr "array");
                                  ("items", JObj [("type", JStr "string")])]);
           ("tags", JObj [("type", JStr "array");
                          ("items", JObj [("type", JStr "string")])])])].

(** Opening hours, as an array of strings, inside a nested object. *)
Definition venue_schema : json :=
  JObj [("type", JStr "object");
        ("properties", JObj [
           ("id", JObj [("type", JStr "string")]);
           ("venue", JObj [("type", JStr "object");
                           ("properties", JObj [
                              ("openingHours", JObj [("type", JStr "array");
                                                     ("items", JObj [("type", JStr "string")])]);
                              ("city", JObj [("type", JStr "string")])])])])].

(** Opening hours declared as an array of objects. *)
Definition hours_as_objects : json :=
  JObj [("type", JStr "object");
        ("properties", JObj [
           ("openingHours",
            JObj [("type", JStr "array");
                  ("items", JObj [("type", JStr "object");
                                  ("properties",
                                   JObj [("day", JObj [("type", JStr "string")]);
                                         ("opens", JObj [("type", JStr "string")]);
                                         ("closes", JObj [("type", JStr "string")])])])])])].

Definition template_world : csv_template_generator.world :=
  {| csv_template_generator.schema_files := [("place", "schemas/v1/place.json")];
     csv_template_generator.json_load := fun _ => Ok place_schema;
     csv_template_generator.csv_text := fun rows => PyStr.join "|" (map (PyStr.join ",") rows) |}.

End Sample.

(* ===================================================================== *)
(** ** Further views, for the properties beyond the claims *)

Module Aux.
Import csv_importer.

(** A line of [csv.DictReader] whose cells are all text. *)
Definition text_row (cells : list (string * string)) : list (string * cell) :=
  map (fun kv => (fst kv, CellStr (snd kv))) cells.

(** The cell holds something else than whitespace. *)
Definition nonblank (kv : string * string) : bool :=
  negb (PyStr.is_empty (PyStr.strip (snd kv))).

Fixpoint all_space (s : string) : bool :=
  match s with
  | EmptyString => true
  | String c s' => PyStr.is_space c && all_space s'
  end.

Fixpoint all_digits (s : string) : bool :=
  match s with
  | EmptyString => true
  | String c s' => PyStr.is_digit c && all_digits s'
  end.

(** A cell that is not text. *)
Definition not_text (c : cell) : Prop :=
  match c with
  | CellStr _ => False
  | _ => True
  end.

(** A key with its coerced value. *)
Definition coerced (kv : string * string) : string * pyval :=
  (fst kv, process_value (snd kv) (fst kv)).

(** The row is judged without an exception: it transcodes, and the
    validator accepts it or raises [ValidationError]. *)
Definition judged_ok (w : world) (schema_path : string) (row : Dict.dict string) : Prop :=
  exists nested,
    transform_flat_to_nested row = Ok nested
    /\ (View.run_validator w schema_path nested = Ok tt
        \/ exists msg, View.run_validator w schema_path nested = Err (ValidationError msg)).

(** The exception the row ends the run with. *)
Definition row_raises (w : world) (schema_path : string) (row : Dict.dict string)
           (e : exn) : Prop :=
  transform_flat_to_nested row = Err e
  \/ exists nested,
       transform_flat_to_nested row = Ok nested
       /\ View.run_validator w schema_path nested = Err e
       /\ forall msg, e <> ValidationError msg.

(** [path] lies under [parent_key]: there is no parent, or the path starts
    with the parent and a dot. *)
Definition under (parent_key path : string) : Prop :=
  parent_key = EmptyString \/ exists rest, path = parent_key ++ "." ++ rest.

(** Every path of [after] is a path of [before] or lies under
    [parent_key]. *)
Definition within (parent_key : string) (before after : Dict.dict json) : Prop :=
  forall path, In path (Dict.keys after) ->
               In path (Dict.keys before) \/ under parent_key path.

(** Two paths part ways: after a common start (maybe empty) they go on with
    different parts. Neither is then a prefix of the other. *)
Fixpoint diverge (p q : list string) : Prop :=
  match p, q with
  | a :: p', b :: q' => a <> b \/ (a = b /\ diverge p' q')
  | _, _ => False
  end.

(** The parts of a key. *)
Definition parts_of (key : string) : list string := PyStr.split "." key.

(** JSON that is not an object, so not a dict once loaded. *)
Definition not_object (v : json) : Prop :=
  match v with
  | JObj _ => False
  | _ => True
  end.

(** The fields every sample row has an example for. *)
Definition common_fields : list string :=
  ["sourceId"; "id"; "nameFr"; "nameEn"; "descriptionFr"; "descriptionEn"].

(** JSON that is no container: [in] is not defined on it. *)
Definition is_scalar (v : json) : bool :=
  match v with
  | JNull | JBool _ | JInt _ | JFloat _ => true
  | _ => false
  end.

(** A property schema that is an object with neither ["properties"] nor
    ["items"]. *)
Definition plain_leaf (v : json) : bool :=
  match v with
  | JObj d => negb (Dict.mem "properties" d) && negb (Dict.mem "items" d)
  | _ => false
  end.

End Aux.


(* ===================================================================== *)
(** ** Lemmas on dicts *)

Section DictFacts.
Context {V : Type}.
Implicit Types (d : Dict.dict V) (k : string) (v : V).

Lemma get_set_same k v d : Dict.get k (Dict.set k v d) = Some v.
Proof.
  induction d as [|[k' v'] d IH]; simpl.
  - now rewrite String.eqb_refl.
  - destruct (String.eqb k' k) eqn:E; simpl; rewrite E; auto.
Qed.

Lemma get_set_other k k' v d :
  k <> k' -> Dict.get k' (Dict.set k v d) = Dict.get k' d.
Proof.
  intros Hne. induction d as [|[k0 v0] d IH]; simpl.
  - destruct (String.eqb k k') eqn:E; auto.
    apply String.eqb_eq in E. contradiction.
  - destruct (String.eqb k0 k) eqn:E; simpl.
    + apply String.eqb_eq in E. subst k0.
      destruct (String.eqb k k') eqn:E'; auto.
      apply String.eqb_eq in E'. contradiction.
    + now rewrite IH.
Qed.

Lemma mem_set_same k v d : Dict.mem k (Dict.set k v d) = true.
Proof. unfold Dict.mem. now rewrite get_set_same. Qed.

Lemma get_In_keys k d : Dict.get k d <> None <-> In k (Dict.keys d).
Proof.
  induction d as [|[k' v'] d IH]; simpl.
  - split; [congruence | tauto].
  - destruct (String.eqb k' k) eqn:E.
    + apply String.eqb_eq in E. split; [auto | congruence].
    + apply String.eqb_neq in E. rewrite IH. split; [auto | intros [ ? | ? ]; tauto].
Qed.

(** Assigning keeps the order of the keys: a present key stays where it
    is, a new key goes last. *)
Lemma keys_set k v d :
  Dict.keys (Dict.set k v d) =
  if Dict.mem k d then Dict.keys d else (Dict.keys d ++ [k])%list.
Proof.
  unfold Dict.mem. induction d as [|[k' v'] d IH]; simpl; auto.
  destruct (String.eqb k' k) eqn:E; simpl; auto.
  rewrite IH. destruct (Dict.get k d); auto.
Qed.

Lemma NoDup_keys_set k v d :
  NoDup (Dict.keys d) -> NoDup (Dict.keys (Dict.set k v d)).
Proof.
  intros Hd. rewrite keys_set. unfold Dict.mem.
  destruct (Dict.get k d) eqn:E; auto.
  apply NoDup_app; auto.
  - constructor; [simpl; tauto | constructor].
  - intros x Hx [<- | []]. apply get_In_keys in Hx. congruence.
Qed.

Lemma In_keys_set k k' v d :
  In k' (Dict.keys d) -> In k' (Dict.keys (Dict.set k v d)).
Proof.
  rewrite keys_set. destruct (Dict.mem k d); auto.
  intros H. apply in_or_app. auto.
Qed.

End DictFacts.

(* ===================================================================== *)
(** ** Lemmas on strings *)

Section StringFacts.
Import PyStr.

(** [c in s] for one character reads [s] from left to right. *)
Lemma contains_char_nil c : contains EmptyString (String c EmptyString) = false.
Proof. reflexivity. Qed.

Lemma contains_char_cons a s c :
  contains (String a s) (String c EmptyString)
  = Ascii.eqb a c || contains s (String c EmptyString).
Proof.
  simpl. destruct (ascii_dec c a) as [->|Hne].
  - rewrite Ascii.eqb_refl. now destruct s.
  - destruct (Ascii.eqb a c) eqn:E; auto.
    apply Ascii.eqb_eq in E. congruence.
Qed.

Lemma split_not_nil sep s : split sep s <> [].
Proof.
  destruct s as [|c s]; simpl; [discriminate|].
  destruct (Ascii.eqb c sep); [discriminate|].
  destruct (split sep s); discriminate.
Qed.

Lemma split_without_sep sep s :
  contains s (String sep EmptyString) = false -> split sep s = [s].
Proof.
  induction s as [|c s IH]; intros H; auto.
  rewrite contains_char_cons in H. apply orb_false_iff in H as [Hc Hs].
  simpl. rewrite Hc, IH; auto.
Qed.

Local Abbreviation comma := (String ","%char EmptyString).

Ltac by_character a := destruct a as [[] [] [] [] [] [] [] []]; reflexivity || discriminate.

Lemma space_is_no_comma a : is_space a = true -> Ascii.eqb a "," = false.
Proof. by_character a. Qed.

Lemma digit_is_no_comma a : is_digit a = true -> Ascii.eqb a "," = false.
Proof. by_character a. Qed.

Lemma lower_char_comma a : Ascii.eqb (lower_char a) "," = Ascii.eqb a ",".
Proof. by_character a. Qed.

Lemma contains_comma_not_empty s : contains s comma = true -> is_empty s = false.
Proof. now destruct s. Qed.

Lemma lower_contains_comma s : contains (lower s) comma = contains s comma.
Proof.
  induction s as [|a s IH]; auto.
  simpl lower. now rewrite !contains_char_cons, lower_char_comma, IH.
Qed.

Lemma lstrip_contains_comma s : contains (lstrip s) comma = contains s comma.
Proof.
  induction s as [|a s IH]; auto.
  simpl lstrip. destruct (is_space a) eqn:E; auto.
  now rewrite IH, contains_char_cons, (space_is_no_comma a E).
Qed.

Lemma rstrip_contains_comma s : contains (rstrip s) comma = contains s comma.
Proof.
  induction s as [|a s IH]; auto.
  cbn [rstrip]. rewrite (contains_char_cons a s).
  destruct (is_space a) eqn:E; cbn [andb].
  - destruct (rstrip s) as [|b r] eqn:R; cbn [is_empty].
    + now rewrite <- IH, (space_is_no_comma a E).
    + now rewrite (contains_char_cons a), IH.
  - now rewrite (contains_char_cons a), IH.
Qed.

Lemma strip_contains_comma s : contains (strip s) comma = contains s comma.
Proof. unfold strip. now rewrite rstrip_contains_comma, lstrip_contains_comma. Qed.

Lemma blank_is_no_comma a : PyNum.is_blank a = true -> Ascii.eqb a "," = false.
Proof. by_character a. Qed.

Lemma lskip_contains_comma s : contains (PyNum.lskip s) comma = contains s comma.
Proof.
  induction s as [|a s IH]; auto.
  cbn [PyNum.lskip]. destruct (PyNum.is_blank a) eqn:E; auto.
  now rewrite IH, contains_char_cons, (blank_is_no_comma a E).
Qed.

Lemma rskip_contains_comma s : contains (PyNum.rskip s) comma = contains s comma.
Proof.
  induction s as [|a s IH]; auto.
  cbn [PyNum.rskip]. rewrite (contains_char_cons a s).
  destruct (PyNum.is_blank a) eqn:E; cbn [andb].
  - destruct (PyNum.rskip s) as [|b r] eqn:R; cbn [is_empty].
    + now rewrite <- IH, (blank_is_no_comma a E).
    + now rewrite (contains_char_cons a), IH.
  - now rewrite (contains_char_cons a), IH.
Qed.

Lemma trim_contains_comma s : contains (PyNum.trim s) comma = contains s comma.
Proof. unfold PyNum.trim. now rewrite rskip_contains_comma, lskip_contains_comma. Qed.

Lemma remove_underscores_contains_comma s prev t :
  PyNum.remove_underscores prev s = Some t -> contains t comma = contains s comma.
Proof.
  revert prev t. induction s as [|a s IH]; intros prev t H; simpl in H.
  - destruct prev as [p|]; [destruct (Ascii.eqb p "_")|];
      try discriminate; now injection H as <-.
  - rewrite contains_char_cons. destruct (Ascii.eqb a "_") eqn:E.
    + apply Ascii.eqb_eq in E. subst a.
      destruct prev as [p|]; [|discriminate].
      destruct (is_digit p); [|discriminate].
      simpl. eauto.
    + destruct (_ && _); [discriminate|].
      destruct (PyNum.remove_underscores (Some a) s) as [t'|] eqn:R; [|discriminate].
      simpl in H. injection H as <-. rewrite contains_char_cons. f_equal. eauto.
Qed.

Lemma take_sign_contains_comma s neg body :
  PyNum.take_sign s = (neg, body) -> contains body comma = contains s comma.
Proof.
  destruct s as [|a s]; intros H; simpl in H;
    [now injection H as _ <- |].
  destruct (Ascii.eqb a "-") eqn:Em.
  - apply Ascii.eqb_eq in Em. subst a. injection H as _ <-.
    now rewrite contains_char_cons.
  - destruct (Ascii.eqb a "+") eqn:Ep.
    + apply Ascii.eqb_eq in Ep. subst a. injection H as _ <-.
      now rewrite contains_char_cons.
    + now injection H as _ <-.
Qed.

Lemma take_digits_contains_comma s ds rest :
  PyNum.take_digits s = (ds, rest) -> contains rest comma = contains s comma.
Proof.
  revert ds rest. induction s as [|a s IH]; intros ds rest H; simpl in H.
  - now injection H as _ <-.
  - destruct (is_digit a) eqn:E.
    + destruct (PyNum.take_digits s) as [ds' rest'] eqn:R. injection H as _ <-.
      now rewrite contains_char_cons, (digit_is_no_comma a E), (IH _ _ eq_refl).
    + now injection H as _ <-.
Qed.

(** Text with a comma in it is no number. *)
Lemma py_int_comma s : contains s comma = true -> PyNum.py_int s = None.
Proof.
  intros H. unfold PyNum.py_int.
  destruct (PyNum.remove_underscores None (PyNum.trim s)) as [t|] eqn:R; auto.
  apply remove_underscores_contains_comma in R. rewrite trim_contains_comma, H in R.
  destruct (PyNum.take_sign t) as [neg body] eqn:S.
  apply take_sign_contains_comma in S. rewrite R in S.
  destruct (PyNum.take_digits body) as [ds rest] eqn:D.
  apply take_digits_contains_comma in D. rewrite S in D.
  rewrite (contains_comma_not_empty _ D). now rewrite orb_true_r.
Qed.

Lemma take_exponent_comma s : contains s comma = true -> PyNum.take_exponent s = None.
Proof.
  intros H. destruct s as [|a s]; [discriminate|]. simpl.
  destruct (Ascii.eqb (lower_char a) "e") eqn:E; auto.
  rewrite contains_char_cons in H.
  assert (Ha : Ascii.eqb a "," = false) by (revert E; by_character a).
  rewrite Ha in H. simpl in H.
  destruct (PyNum.take_sign s) as [neg body] eqn:S.
  apply take_sign_contains_comma in S. rewrite H in S.
  destruct (PyNum.take_digits body) as [ds rest] eqn:D.
  apply take_digits_contains_comma in D. rewrite S in D.
  rewrite (contains_comma_not_empty _ D). now rewrite orb_true_r.
Qed.

Lemma py_float_comma s : contains s comma = true -> PyNum.py_float s = None.
Proof.
  intros H. unfold PyNum.py_float.
  destruct (PyNum.remove_underscores None (PyNum.trim s)) as [t|] eqn:R; auto.
  apply remove_underscores_contains_comma in R. rewrite trim_contains_comma, H in R.
  destruct (PyNum.take_sign t) as [neg body] eqn:S.
  apply take_sign_contains_comma in S. rewrite R in S.
  assert (Hword : forall w, contains w comma = false -> String.eqb (lower body) w = false).
  { intros w Hw. destruct (String.eqb (lower body) w) eqn:E; auto.
    apply String.eqb_eq in E. rewrite <- E, lower_contains_comma, S in Hw. discriminate. }
  rewrite !Hword by reflexivity. simpl.
  destruct (PyNum.take_digits body) as [int_part rest] eqn:D.
  apply take_digits_contains_comma in D. rewrite S in D.
  assert (Hfrac : forall frac_part rest',
             match rest with
             | String c r => if Ascii.eqb c "." then PyNum.take_digits r
                             else (EmptyString, rest)
             | EmptyString => (EmptyString, rest)
             end = (frac_part, rest') -> contains rest' comma = true).
  { intros frac_part rest' Hr. destruct rest as [|c r]; [discriminate|].
    destruct (Ascii.eqb c ".") eqn:E.
    - apply Ascii.eqb_eq in E. subst c. apply take_digits_contains_comma in Hr.
      rewrite contains_char_cons in D. simpl in D. congruence.
    - now injection Hr as _ <-. }
  destruct (match rest with EmptyString => _ | String _ _ => _ end)
    as [frac_part rest'] eqn:F.
  rewrite (take_exponent_comma _ (Hfrac _ _ eq_refl)).
  now destruct (_ && _).
Qed.

Lemma append_inj_l (a x y : string) : a ++ x = a ++ y -> x = y.
Proof. induction a as [|c a IH]; simpl; intros H; auto. injection H as H. auto. Qed.

Lemma endswith_char_app c s : endswith_char c (s ++ String c EmptyString) = true.
Proof.
  induction s as [|a s IH]; simpl.
  - apply Ascii.eqb_refl.
  - destruct (s ++ String c EmptyString) eqn:E; auto.
    destruct s; discriminate.
Qed.

Lemma drop_last_app c s : drop_last (s ++ String c EmptyString) = s.
Proof.
  induction s as [|a s IH]; simpl; auto.
  destruct (s ++ String c EmptyString) eqn:E.
  - destruct s; discriminate.
  - now rewrite IH.
Qed.

Lemma existsb_eqb_not_In (x : string) (l : list string) :
  ~ In x l -> existsb (String.eqb x) l = false.
Proof.
  intros H. destruct (existsb (String.eqb x) l) eqn:E; auto.
  apply existsb_exists in E as [y [Hy Hxy]].
  apply String.eqb_eq in Hxy. subst y. contradiction.
Qed.

Lemma append_assoc (a b c : string) : (a ++ b) ++ c = a ++ (b ++ c).
Proof. induction a as [|x a IH]; simpl; congruence. Qed.

Lemma append_empty_r (a : string) : a ++ EmptyString = a.
Proof. induction a as [|x a IH]; simpl; congruence. Qed.

Lemma join_mentions (sep : string) (f : string -> string) x l :
  In x l -> exists pre post, join sep (map f l) = pre ++ f x ++ post.
Proof.
  induction l as [|y l IH]; intros H; [contradiction|].
  destruct H as [-> | H].
  - exists EmptyString. destruct l as [|z l].
    + exists EmptyString. simpl. now rewrite append_empty_r.
    + exists (sep ++ join sep (map f (z :: l))). reflexivity.
  - destruct (IH H) as (pre & post & E). destruct l as [|z l]; [contradiction|].
    exists (f y ++ sep ++ pre), post.
    change (join sep (map f (y :: z :: l)))
      with (f y ++ sep ++ join sep (map f (z :: l))).
    now rewrite E, !append_assoc.
Qed.

End StringFacts.

(* ===================================================================== *)
(** ** The transcoder: [process_value] and [transform_flat_to_nested] *)

Section Transcoder.
Import PyStr PyNum csv_importer View.


Lemma assign_path_lookup parts v d d' :
  parts <> [] -> assign_path parts v d = Ok d' -> lookup_path parts d' = Some v.
Proof.
  revert d d'. induction parts as [|part rest IH]; intros d d' Hne H; [congruence|].
  destruct rest as [|part' rest].
  - simpl in H. injection H as <-. simpl. apply get_set_same.
  - remember (part' :: rest) as tail eqn:Etail.
    assert (Htail : tail <> []) by (subst tail; discriminate).
    assert (Hstep : forall (A : Type) (x y : A),
               match tail with [] => x | _ :: _ => y end = y)
      by (intros; subst tail; reflexivity).
    simpl in H. rewrite Hstep in H. simpl. rewrite Hstep.
    set (current := if negb (Dict.mem part d) then Dict.set part (VDict []) d else d) in H.
    destruct (Dict.get part current) as [[| | | | | |inner]|]; try discriminate.
    destruct (assign_path tail v inner) as [inner'|] eqn:E; try discriminate.
    simpl in H. injection H as <-. rewrite get_set_same. eauto.
Qed.

(** C9. [transform_flat_to_nested] is not total: on the flat row
    [{"a": "5", "a.b": "6"}], in that order, the key [a] is first set to
    the integer 5 and the walk for [a.b] then descends into that integer,
    which raises [TypeError]. In the other order the row transcodes. *)
Theorem transform_flat_to_nested_raises_on_leaf_prefix :
  transform_flat_to_nested [("a", "5"); ("a.b", "6")] = Err TypeError
  /\ transform_flat_to_nested [("a", "5")] = Ok [("a", VInt 5)]
  /\ transform_flat_to_nested [("a.b", "6"); ("a", "5")] = Ok [("a", VInt 5)].
Proof. repeat split; reflexivity. Qed.

(** C2. A value whose lowercase form is ["true"], ["yes"] or ["1"] is
    coerced to the boolean [True], and one whose lowercase form is
    ["false"], ["no"] or ["0"] to the boolean [False], whatever the field
    name is and before the list and the numeric readings are tried; so
    ["0"] and ["1"] give booleans, never the integers 0 and 1. *)
Theorem process_value_boolean_tokens_first (value key : string) :
  (In (lower value) ["true"; "yes"; "1"] -> process_value value key = VBool true)
  /\ (In (lower value) ["false"; "no"; "0"] -> process_value value key = VBool false)
  /\ process_value "1" key = VBool true
  /\ process_value "0" key = VBool false
  /\ process_value "1" key <> VInt 1
  /\ process_value "0" key <> VInt 0.
Proof.
  assert (Hne : forall t, In (lower value) t -> ~ In EmptyString t ->
                          String.eqb value "" = false).
  { intros t Hin Hnot. destruct value; [simpl in Hin; contradiction | reflexivity]. }
  repeat split; try discriminate; try reflexivity.
  - intros Hin. unfold process_value.
    rewrite (Hne _ Hin) by (simpl; intuition discriminate).
    simpl in Hin. destruct Hin as [<- | [<- | [<- | []]]]; reflexivity.
  - intros Hin. unfold process_value.
    rewrite (Hne _ Hin) by (simpl; intuition discriminate).
    simpl in Hin. destruct Hin as [<- | [<- | [<- | []]]]; reflexivity.
Qed.

Lemma process_value_boolean_tokens_first_witness :
  In (lower "YES") ["true"; "yes"; "1"] /\ process_value "YES" "count" = VBool true
  /\ In (lower "No") ["false"; "no"; "0"] /\ process_value "No" "count" = VBool false.
Proof.
  pose proof (process_value_boolean_tokens_first "YES" "count") as [Ht _].
  pose proof (process_value_boolean_tokens_first "No" "count") as [_ [Hf _]].
  assert (H1 : In (lower "YES") ["true"; "yes"; "1"]) by (simpl; tauto).
  assert (H2 : In (lower "No") ["false"; "no"; "0"]) by (simpl; tauto).
  exact (conj H1 (conj (Ht H1) (conj H2 (Hf H2)))).
Defined.



(** C5. Let [value] be no boolean token and contain a comma. If the
    lowercase field name contains one of ["tags"], ["features"], ["names"],
    ["ids"], [process_value] gives a list of strings: one pair of enclosing
    double quotes is removed when the value both starts and ends with a
    double quote, the text is split at every comma and each piece is
    stripped. If the field name contains none of them, the value stays the
    text it is. So ["x,y,z"] becomes [["x"; "y"; "z"]] for [categoryTags]
    and stays ["x,y,z"] for [plainField]. *)
Theorem process_value_comma_separated (value key : string) :
  ~ In (lower value) ["true"; "yes"; "1"; "false"; "no"; "0"] ->
  contains value "," = true ->
  (forall indicator inner,
      In indicator ["tags"; "features"; "names"; "ids"] ->
      contains (lower key) indicator = true ->
      value = String quote (inner ++ String quote "") ->
      process_value value key = VList (map strip (split "," inner)))
  /\ (forall indicator,
         In indicator ["tags"; "features"; "names"; "ids"] ->
         contains (lower key) indicator = true ->
         startswith_char quote value && endswith_char quote value = false ->
         process_value value key = VList (map strip (split "," value)))
  /\ ((forall indicator,
          In indicator ["tags"; "features"; "names"; "ids"] ->
          contains (lower key) indicator = false) ->
      process_value value key = VStr value)
  /\ process_value "x,y,z" "categoryTags" = VList ["x"; "y"; "z"]
  /\ process_value "x,y,z" "plainField" = VStr "x,y,z".
Proof.
  intros Htoken Hcomma.
  assert (Hstart : forall k,
    process_value value k =
    if is_list_field k then
      VList (map strip (split ","
        (if startswith_char quote value && endswith_char quote value
         then slice_1_m1 value else value)))
    else VStr value).
  { intros k. unfold process_value.
    assert (String.eqb value "" = false) as -> by (now destruct value).
    rewrite !existsb_eqb_not_In by (intros H; apply Htoken; simpl in *; tauto).
    rewrite Hcomma. cbn [andb]. destruct (is_list_field k); auto.
    destruct (contains value "."); [now rewrite py_float_comma | now rewrite py_int_comma]. }
  assert (Hlist : forall indicator,
    In indicator ["tags"; "features"; "names"; "ids"] ->
    contains (lower key) indicator = true -> is_list_field key = true).
  { intros indicator Hin Hc. apply existsb_exists. eauto. }
  repeat split; try reflexivity.
  - intros indicator inner Hin Hc ->. rewrite Hstart, (Hlist _ Hin Hc).
    assert (endswith_char quote (String quote (inner ++ String quote "")) = true)
      as -> by apply (endswith_char_app quote (String quote inner)).
    cbn [startswith_char slice_1_m1]. rewrite Ascii.eqb_refl. cbn [andb].
    now rewrite drop_last_app.
  - intros indicator Hin Hc Hq. now rewrite Hstart, (Hlist _ Hin Hc), Hq.
  - intros Hnone. rewrite Hstart.
    destruct (is_list_field key) eqn:E; auto.
    apply existsb_exists in E as [indicator [Hin Hc]].
    rewrite (Hnone _ Hin) in Hc. discriminate.
Qed.

Lemma process_value_comma_separated_witness :
  process_value (String quote ("Rock , Jazz,Pop" ++ String quote "")) "performerNames"
  = VList ["Rock"; "Jazz"; "Pop"]
  /\ process_value "a, b" "featureIDs" = VList ["a"; "b"]
  /\ process_value "1,5" "price" = VStr "1,5".
Proof.
  split; [|split].
  - refine (proj1 (process_value_comma_separated
              (String quote ("Rock , Jazz,Pop" ++ String quote "")) "performerNames" _ _)
              "names" "Rock , Jazz,Pop" _ _ eq_refl);
      [ simpl; intuition discriminate | reflexivity | simpl; tauto | reflexivity ].
  - refine (proj1 (proj2 (process_value_comma_separated "a, b" "featureIDs" _ _))
              "ids" _ _ _);
      [ simpl; intuition discriminate | reflexivity | simpl; tauto | reflexivity
      | reflexivity ].
  - refine (proj1 (proj2 (proj2 (process_value_comma_separated "1,5" "price" _ _))) _);
      [ simpl; intuition discriminate | reflexivity |].
    intros indicator Hin. simpl in Hin.
    destruct Hin as [<- | [<- | [<- | [<- | []]]]]; reflexivity.
Defined.

End Transcoder.

(* ===================================================================== *)
(** ** The validation pipeline: [import_and_validate_csv] *)

Section Pipeline.
Import PyStr csv_importer View.
Variable w : world.
Variable schema_path : string.

(** [validate_against_schema] has three outcomes. *)
Lemma validate_against_schema_cases data :
  validate_against_schema w data schema_path = Ok (true, None)
  \/ (exists msg, validate_against_schema w data schema_path = Ok (false, Some msg))
  \/ (exists e, validate_against_schema w data schema_path = Err e).
Proof.
  unfold validate_against_schema.
  destruct (schema <- load_schema w schema_path ;; validate w (VDict data) schema)
    as [u|[]]; eauto.
Qed.

Lemma validate_row_judge r entry :
  validate_row w schema_path r entry
  = (vo <- judge w schema_path entry ;; Ok (record_outcome r vo)).
Proof.
  destruct entry as [i row]. unfold validate_row, judge.
  destruct (transform_flat_to_nested row) as [nested|e]; auto. simpl.
  destruct (validate_against_schema_cases nested) as [H | [[msg H] | [e H]]];
    now rewrite H.
Qed.

Lemma for_each_judge entries r :
  for_each (validate_row w schema_path) entries r
  = (outs <- map_result (judge w schema_path) entries ;;
     Ok (fold_left record_outcome outs r)).
Proof.
  revert r. induction entries as [|entry entries IH]; intros r; auto.
  simpl. rewrite validate_row_judge.
  destruct (judge w schema_path entry) as [vo|e]; auto. simpl.
  rewrite IH. now destruct (map_result (judge w schema_path) entries).
Qed.

Lemma fold_record_outcome outs r :
  let r' := fold_left record_outcome outs r in
  total r' = total r
  /\ valid r' = valid r + length (filter fst outs)
  /\ invalid r' = invalid r + length (filter (fun vo => negb (fst vo)) outs)
  /\ valid_items r' = (valid_items r ++ map snd (filter fst outs))%list
  /\ invalid_items r'
     = (invalid_items r ++ map snd (filter (fun vo => negb (fst vo)) outs))%list.
Proof.
  revert r. induction outs as [|[ok o] outs IH]; intros r; simpl.
  - rewrite !app_nil_r. repeat split; lia.
  - destruct (IH (record_outcome r (ok, o))) as (Ht & Hv & Hi & Hvs & His).
    rewrite Ht, Hv, Hi, Hvs, His. unfold record_outcome.
    destruct ok; simpl; rewrite <- ?app_assoc; repeat split; lia.
Qed.

Lemma map_result_length {A B : Type} (f : A -> result B) xs ys :
  map_result f xs = Ok ys -> length ys = length xs.
Proof.
  revert ys. induction xs as [|x xs IH]; intros ys H; simpl in H.
  - now injection H as <-.
  - destruct (f x); [|discriminate]. simpl in H.
    destruct (map_result f xs); [|discriminate]. injection H as <-.
    simpl. f_equal. auto.
Qed.

Lemma map_result_nth {A B : Type} (f : A -> result B) xs ys i x :
  map_result f xs = Ok ys -> nth_error xs i = Some x ->
  exists y, nth_error ys i = Some y /\ f x = Ok y.
Proof.
  revert ys i. induction xs as [|x0 xs IH]; intros ys i H Hi.
  - destruct i; discriminate.
  - simpl in H. destruct (f x0) as [y0|] eqn:E0; [|discriminate]. simpl in H.
    destruct (map_result f xs) as [ys'|]; [|discriminate]. injection H as <-.
    destruct i as [|i]; simpl in *.
    + injection Hi as <-. eauto.
    + eauto.
Qed.

Lemma map_result_all_ok {A B : Type} (f : A -> result B) xs :
  (forall x, In x xs -> exists y, f x = Ok y) -> exists ys, map_result f xs = Ok ys.
Proof.
  induction xs as [|x xs IH]; intros H; simpl; eauto.
  destruct (H x) as [y ->]; [now left|].
  destruct IH as [ys ->]; [intros; apply H; now right|].
  simpl. eauto.
Qed.

Lemma enumerate_from_nth {A : Type} (xs : list A) start i x :
  nth_error xs i = Some x -> nth_error (enumerate_from start xs) i = Some (start + i, x).
Proof.
  revert start i. induction xs as [|x0 xs IH]; intros start i H.
  - destruct i; discriminate.
  - destruct i as [|i]; simpl in *.
    + injection H as <-. now rewrite Nat.add_0_r.
    + rewrite (IH (S start) i H). f_equal. f_equal. lia.
Qed.

Lemma enumerate_from_In {A : Type} (xs : list A) start entry :
  In entry (enumerate_from start xs) -> In (snd entry) xs.
Proof.
  revert start. induction xs as [|x xs IH]; intros start; simpl; [tauto|].
  intros [<- | H]; eauto.
Qed.

(** The entries carry the row numbers [start + 2], [start + 3], ... in the
    order of the rows. *)
Lemma judge_row_numbers rows start outs :
  map_result (judge w schema_path) (enumerate_from start rows) = Ok outs ->
  map (fun vo => item_row (snd vo)) outs
  = map (fun i => i + 2) (seq start (length rows)).
Proof.
  revert start outs. induction rows as [|row rows IH]; intros start outs H; simpl in H.
  - now injection H as <-.
  - destruct (transform_flat_to_nested row) as [nested|]; [|discriminate]. simpl in H.
    destruct (validate_against_schema w nested schema_path) as [checked|];
      [|discriminate]. simpl in H.
    destruct (map_result (judge w schema_path) (enumerate_from (S start) rows))
      as [outs'|] eqn:E; [|discriminate].
    injection H as <-. simpl. f_equal. eauto.
Qed.

Lemma count_row_split n (outs : list (bool * outcome)) :
  count_row n (map snd (filter fst outs))
  + count_row n (map snd (filter (fun vo => negb (fst vo)) outs))
  = count_occ Nat.eq_dec (map (fun vo => item_row (snd vo)) outs) n.
Proof.
  unfold count_row. induction outs as [|[ok o] outs IH]; auto.
  destruct ok; simpl; destruct (Nat.eq_dec (item_row o) n); lia.
Qed.

Lemma count_occ_row_numbers n start len :
  count_occ Nat.eq_dec (map (fun i => i + 2) (seq start len)) n
  = if Nat.leb (start + 2) n && Nat.ltb n (start + 2 + len) then 1 else 0.
Proof.
  revert start. induction len as [|len IH]; intros start; simpl.
  - destruct (Nat.leb_spec (start + 2) n); destruct (Nat.ltb_spec n (start + 2 + 0));
      auto; lia.
  - rewrite IH. destruct (Nat.eq_dec (start + 2) n) as [<-|Hne];
      destruct (Nat.leb_spec (S start + 2) (start + 2));
      destruct (Nat.ltb_spec (start + 2) (S start + 2 + len));
      destruct (Nat.leb_spec (start + 2) (start + 2));
      destruct (Nat.ltb_spec (start + 2) (start + 2 + S len));
      try destruct (Nat.leb_spec (S start + 2) n);
      try destruct (Nat.ltb_spec n (S start + 2 + len));
      try destruct (Nat.leb_spec (start + 2) n);
      try destruct (Nat.ltb_spec n (start + 2 + S len));
      simpl; auto; lia.
Qed.

End Pipeline.

Section ImportSteps.
Import PyStr csv_importer View.
Variable w : world.
Variables file_path schema_name : string.

(** [import_and_validate_csv] as a whole: the schema is looked up, the
    rows are read, every row is judged, and the verdicts are tallied. *)
Lemma import_unfold :
  import_and_validate_csv w file_path schema_name
  = match Dict.get schema_name (get_available_schemas w) with
    | None => Err (ValueError
                     (unknown_schema_message schema_name (get_available_schemas w)))
    | Some schema_path =>
        csv_data <- read_csv_file w file_path ;;
        outs <- map_result (judge w schema_path) (enumerate csv_data) ;;
        Ok (fold_left record_outcome outs (fresh_report csv_data))
    end.
Proof.
  unfold import_and_validate_csv.
  destruct (Dict.get schema_name (get_available_schemas w)); auto.
  destruct (read_csv_file w file_path) as [csv_data|]; auto. simpl.
  apply for_each_judge.
Qed.

Lemma import_ok_inv rep :
  import_and_validate_csv w file_path schema_name = Ok rep ->
  exists schema_path csv_data outs,
    Dict.get schema_name (get_available_schemas w) = Some schema_path
    /\ read_csv_file w file_path = Ok csv_data
    /\ map_result (judge w schema_path) (enumerate csv_data) = Ok outs
    /\ rep = fold_left record_outcome outs (fresh_report csv_data).
Proof.
  rewrite import_unfold.
  destruct (Dict.get schema_name (get_available_schemas w)) as [sp|]; [|discriminate].
  destruct (read_csv_file w file_path) as [csv_data|]; [|discriminate]. simpl.
  destruct (map_result (judge w sp) (enumerate csv_data)) as [outs|] eqn:E;
    [|discriminate].
  simpl. intros H. injection H as <-. eauto 7.
Qed.

End ImportSteps.


Section PipelineClaims.
Import PyStr csv_importer View.

Lemma filter_split_length {A : Type} (f : A -> bool) (l : list A) :
  length (filter f l) + length (filter (fun x => negb (f x)) l) = length l.
Proof. induction l as [|x l IH]; simpl; auto. destruct (f x); simpl; lia. Qed.

Lemma enumerate_from_length {A : Type} (xs : list A) start :
  length (enumerate_from start xs) = length xs.
Proof. revert start. induction xs; intros; simpl; auto. Qed.

Lemma validate_against_schema_run w schema_path data :
  validate_against_schema w data schema_path
  = match run_validator w schema_path data with
    | Ok _ => Ok (true, None)
    | Err (ValidationError msg) => Ok (false, Some msg)
    | Err e => Err e
    end.
Proof. reflexivity. Qed.

Lemma judged_entry_recorded (outs : list (bool * outcome)) r vo :
  In vo outs ->
  In (snd vo) (if fst vo then valid_items (fold_left record_outcome outs r)
               else invalid_items (fold_left record_outcome outs r)).
Proof.
  intros H. destruct (fold_record_outcome outs r) as (_ & _ & _ & Hv & Hi).
  destruct vo as [ok o].
  destruct ok; simpl; [rewrite Hv | rewrite Hi];
    apply in_or_app; right; apply in_map_iff;
    [exists (true, o) | exists (false, o)]; split; auto; apply filter_In; auto.
Qed.

(** C10. A report [import_and_validate_csv] returns has
    [total = valid + invalid], as many entries in [valid_items] as [valid]
    counts and in [invalid_items] as [invalid] counts, [total] is the
    number of data rows, and every data row (row number [i + 2] for the
    data index [i]) has exactly one entry in the two lists together; no
    entry carries another row number. *)
Theorem report_tallies_agree (w : world) (file_path schema_name : string)
        (rep : report) :
  import_and_validate_csv w file_path schema_name = Ok rep ->
  total rep = valid rep + invalid rep
  /\ length (valid_items rep) = valid rep
  /\ length (invalid_items rep) = invalid rep
  /\ (exists csv_data,
         read_csv_file w file_path = Ok csv_data /\ total rep = length csv_data)
  /\ (forall i, i < total rep ->
         count_row (i + 2) (valid_items rep) + count_row (i + 2) (invalid_items rep) = 1)
  /\ (forall n, n < 2 \/ total rep + 2 <= n ->
         count_row n (valid_items rep) + count_row n (invalid_items rep) = 0).
Proof.
  intros H. apply import_ok_inv in H as (sp & csv_data & outs & _ & Hread & Houts & ->).
  destruct (fold_record_outcome outs (fresh_report csv_data)) as (Ht & Hv & Hi & Hvs & His).
  cbv zeta in *. simpl in Ht, Hv, Hi, Hvs, His.
  pose proof (map_result_length _ _ _ Houts) as Hlen.
  unfold enumerate in Hlen, Houts. rewrite enumerate_from_length in Hlen.
  pose proof (filter_split_length fst outs) as Hsplit.
  assert (Hcount : forall n,
    count_row n (valid_items (fold_left record_outcome outs (fresh_report csv_data)))
    + count_row n (invalid_items (fold_left record_outcome outs (fresh_report csv_data)))
    = if Nat.leb 2 n && Nat.ltb n (2 + length csv_data) then 1 else 0).
  { intros n. rewrite Hvs, His, count_row_split.
    rewrite (judge_row_numbers _ _ _ _ _ Houts). apply count_occ_row_numbers. }
  rewrite Ht, Hv, Hi, Hvs, His, !length_map.
  repeat split; try lia.
  - exists csv_data. auto.
  - intros i Hlt. rewrite <- Hvs, <- His, Hcount.
    destruct (Nat.leb_spec 2 (i + 2)); destruct (Nat.ltb_spec (i + 2) (2 + length csv_data));
      simpl; auto; lia.
  - intros n Hn. rewrite <- Hvs, <- His, Hcount.
    destruct (Nat.leb_spec 2 n); destruct (Nat.ltb_spec n (2 + length csv_data));
      simpl; auto; lia.
Qed.

Lemma report_tallies_agree_witness :
  exists rep,
    import_and_validate_csv Sample.world "events.csv" "event" = Ok rep
    /\ total rep = 2 /\ valid rep = 1 /\ invalid rep = 1
    /\ total rep = valid rep + invalid rep
    /\ length (valid_items rep) = valid rep
    /\ length (invalid_items rep) = invalid rep.
Proof.
  destruct (import_and_validate_csv Sample.world "events.csv" "event") as [rep|e] eqn:E;
    [|discriminate E].
  exists rep.
  pose proof (report_tallies_agree Sample.world "events.csv" "event" rep E)
    as (Ht & Hv & Hi & _).
  injection E as <-.
  repeat split; solve [reflexivity | assumption].
Defined.

(** C7. The entry [import_and_validate_csv] records for the data row at
    index [i] (counting from 0) carries the row number [i + 2] and holds
    that row's nested record; the row numbers of the entries, in row
    order, are 2, 3, ... So with two data rows the first is reported as
    row 2 and the second as row 3. *)
Theorem outcome_row_number_is_index_plus_two
        (w : world) (file_path schema_name : string) (rep : report)
        (csv_data : list (Dict.dict string)) (i : nat) (row : Dict.dict string) :
  import_and_validate_csv w file_path schema_name = Ok rep ->
  read_csv_file w file_path = Ok csv_data ->
  nth_error csv_data i = Some row ->
  exists o,
    In o (valid_items rep ++ invalid_items rep)%list
    /\ item_row o = i + 2
    /\ transform_flat_to_nested row = Ok (item_data o)
    /\ item_id o = get_id (item_data o).
Proof.
  intros H Hread Hrow.
  apply import_ok_inv in H as (sp & csv_data' & outs & _ & Hread' & Houts & ->).
  rewrite Hread in Hread'. injection Hread' as <-.
  pose proof (enumerate_from_nth csv_data 0 i row Hrow) as Hentry.
  destruct (map_result_nth _ _ _ _ _ Houts Hentry) as (vo & Hvo & Hjudge).
  apply nth_error_In in Hvo.
  pose proof (judged_entry_recorded outs (fresh_report csv_data) vo Hvo) as Hin.
  exists (snd vo). split; [|clear Hin].
  - apply in_or_app. destruct (fst vo); auto.
  - unfold judge in Hjudge.
    destruct (transform_flat_to_nested row) as [nested|]; [|discriminate].
    simpl in Hjudge.
    destruct (validate_against_schema w nested sp) as [checked|]; [|discriminate].
    injection Hjudge as <-. simpl. auto.
Qed.

Lemma outcome_row_number_is_index_plus_two_witness :
  exists rep first second,
    import_and_validate_csv Sample.world "events.csv" "event" = Ok rep
    /\ In first (valid_items rep ++ invalid_items rep)%list
    /\ item_row first = 2 /\ Dict.get "id" (item_data first) = Some (VStr "event123")
    /\ In second (valid_items rep ++ invalid_items rep)%list
    /\ item_row second = 3 /\ Dict.get "id" (item_data second) = Some (VStr "event456").
Proof.
  destruct (import_and_validate_csv Sample.world "events.csv" "event") as [rep|e] eqn:E;
    [|discriminate E].
  set (row1 := [("sourceId", "partner123"); ("id", "event123"); ("nameFr", "Valid Event");
                ("descriptionFr", "Valid Description"); ("status", "Scheduled")]).
  set (row2 := [("sourceId", "partner123"); ("id", "event456");
                ("descriptionFr", "Invalid Description"); ("status", "InvalidStatus")]).
  destruct (outcome_row_number_is_index_plus_two
              Sample.world "events.csv" "event" rep [row1; row2] 0 row1
              E eq_refl eq_refl)
    as (first & Hin1 & Hrow1 & Hdata1 & _).
  destruct (outcome_row_number_is_index_plus_two
              Sample.world "events.csv" "event" rep [row1; row2] 1 row2
              E eq_refl eq_refl)
    as (second & Hin2 & Hrow2 & Hdata2 & _).
  exists rep, first, second.
  injection Hdata1 as Hdata1. injection Hdata2 as Hdata2.
  rewrite <- Hdata1, <- Hdata2.
  repeat split; solve [reflexivity | assumption].
Defined.

(** C6. When the requested name is not among the available schemas,
    [import_and_validate_csv] raises [ValueError] and returns no report;
    the message holds the requested name as given and the list of the
    available names as Python prints a list of strings, every available
    name in it by its [repr]. The outcome is the same whatever reading the
    file, loading a schema or validating would do, so no row is read or
    processed first. *)
Theorem unknown_schema_is_rejected_first (w : world) (file_path schema_name : string) :
  Dict.mem schema_name (get_available_schemas w) = false ->
  let message := unknown_schema_message schema_name (get_available_schemas w) in
  import_and_validate_csv w file_path schema_name = Err (ValueError message)
  /\ (forall rep, import_and_validate_csv w file_path schema_name <> Ok rep)
  /\ message = "Unknown schema: " ++ schema_name ++ ". Available schemas: "
                 ++ repr_list (Dict.keys (get_available_schemas w))
  /\ (forall name, In name (Dict.keys (get_available_schemas w)) ->
        exists pre post,
          repr_list (Dict.keys (get_available_schemas w)) = pre ++ repr name ++ post)
  /\ (forall reader loader validator,
        import_and_validate_csv
          {| schema_files := schema_files w; dict_reader := reader;
             json_load := loader; validate := validator |} file_path schema_name
        = Err (ValueError message)).
Proof.
  intros Hmem message. unfold Dict.mem in Hmem.
  assert (Hfirst : forall w', schema_files w' = schema_files w ->
            import_and_validate_csv w' file_path schema_name = Err (ValueError message)).
  { intros w' Hw. unfold import_and_validate_csv, message, get_available_schemas in *.
    rewrite Hw. destruct (Dict.get schema_name _); [discriminate | reflexivity]. }
  repeat split.
  - now apply Hfirst.
  - intros rep. rewrite Hfirst by reflexivity. discriminate.
  - intros name Hin. unfold repr_list.
    destruct (join_mentions ", " repr name _ Hin) as (pre & post & ->).
    exists ("[" ++ pre), (post ++ "]").
    generalize (repr name). intros r. now rewrite !append_assoc.
  - intros reader loader validator. now apply Hfirst.
Qed.

Lemma unknown_schema_is_rejected_first_witness :
  Dict.mem "nonexistent_schema" (get_available_schemas Sample.world) = false
  /\ import_and_validate_csv Sample.world "events.csv" "nonexistent_schema"
     = Err (ValueError
              "Unknown schema: nonexistent_schema. Available schemas: ['event', 'place']").
Proof.
  split; [reflexivity|].
  exact (proj1 (unknown_schema_is_rejected_first
                  Sample.world "events.csv" "nonexistent_schema" eq_refl)).
Defined.

(** C1, as stated, fails: the schema is known and the file is read, but
    the first line sets [price] and then [price.currency]; transcoding it
    raises [TypeError], nothing catches it, and the run returns no report
    although the second line is a sound row. *)
Lemma transcoding_failure_aborts_the_run :
  Dict.mem "event" (get_available_schemas Sample.world) = true
  /\ read_csv_file Sample.world "clash.csv"
     = Ok [[("id", "event1"); ("nameFr", "First"); ("price", "5"); ("price.currency", "CAD")];
           [("id", "event2"); ("nameFr", "Second")]]
  /\ transform_flat_to_nested
       [("id", "event1"); ("nameFr", "First"); ("price", "5"); ("price.currency", "CAD")]
     = Err TypeError
  /\ import_and_validate_csv Sample.world "clash.csv" "event" = Err TypeError
  /\ ~ exists rep, import_and_validate_csv Sample.world "clash.csv" "event" = Ok rep.
Proof.
  repeat split; try reflexivity.
  intros [rep H]. discriminate H.
Qed.

(** C1, amended. For a known schema and a file that is read, when every
    row transcodes and the validator raises nothing but [ValidationError],
    [import_and_validate_csv] returns a report over all the data rows: a
    row the validator rejects is entered in [invalid_items] with its row
    number, its id, the text of the error and its record, a row it accepts
    is entered in [valid_items], and the rows after a rejected row are
    processed all the same. *)
Theorem validation_failure_is_isolated
        (w : world) (file_path schema_name schema_path : string)
        (csv_data : list (Dict.dict string)) :
  Dict.get schema_name (get_available_schemas w) = Some schema_path ->
  read_csv_file w file_path = Ok csv_data ->
  (forall row, In row csv_data ->
     exists nested,
       transform_flat_to_nested row = Ok nested
       /\ (run_validator w schema_path nested = Ok tt
           \/ exists msg, run_validator w schema_path nested = Err (ValidationError msg))) ->
  exists rep,
    import_and_validate_csv w file_path schema_name = Ok rep
    /\ total rep = length csv_data
    /\ valid rep + invalid rep = length csv_data
    /\ forall i row nested,
         nth_error csv_data i = Some row ->
         transform_flat_to_nested row = Ok nested ->
         (forall msg,
             run_validator w schema_path nested = Err (ValidationError msg) ->
             In {| item_row := i + 2; item_id := get_id nested;
                   item_error := Some msg; item_data := nested |}
                (invalid_items rep))
         /\ (run_validator w schema_path nested = Ok tt ->
             In {| item_row := i + 2; item_id := get_id nested;
                   item_error := None; item_data := nested |}
                (valid_items rep)).
Proof.
  intros Hschema Hread Hrows.
  destruct (map_result_all_ok (judge w schema_path) (enumerate csv_data)) as [outs Houts].
  { intros [i row] Hin. apply enumerate_from_In in Hin. simpl in Hin.
    destruct (Hrows row Hin) as (nested & Ht & Hv). unfold judge. rewrite Ht. simpl.
    rewrite validate_against_schema_run.
    destruct Hv as [-> | [msg ->]]; simpl; eauto. }
  exists (fold_left record_outcome outs (fresh_report csv_data)).
  destruct (fold_record_outcome outs (fresh_report csv_data)) as (Ht & Hv & Hi & _).
  cbv zeta in *. simpl in Ht, Hv, Hi.
  pose proof (map_result_length _ _ _ Houts) as Hlen.
  unfold enumerate in Hlen. rewrite enumerate_from_length in Hlen.
  pose proof (filter_split_length fst outs) as Hsplit.
  split; [|split; [|split]]; try lia.
  - rewrite import_unfold, Hschema, Hread. simpl. now rewrite Houts.
  - intros i row nested Hrow Hnested.
    pose proof (enumerate_from_nth csv_data 0 i row Hrow) as Hentry.
    destruct (map_result_nth _ _ _ _ _ Houts Hentry) as (vo & Hvo & Hjudge).
    apply nth_error_In in Hvo.
    pose proof (judged_entry_recorded outs (fresh_report csv_data) vo Hvo) as Hin.
    unfold judge in Hjudge. rewrite Hnested in Hjudge. simpl in Hjudge.
    rewrite validate_against_schema_run in Hjudge.
    split.
    + intros msg Hmsg. rewrite Hmsg in Hjudge. injection Hjudge as <-. exact Hin.
    + intros Hok. rewrite Hok in Hjudge. injection Hjudge as <-. exact Hin.
Qed.

Lemma validation_failure_is_isolated_witness :
  exists rep,
    import_and_validate_csv Sample.world "events.csv" "event" = Ok rep
    /\ total rep = 2
    /\ map item_row (valid_items rep) = [2]
    /\ map item_row (invalid_items rep) = [3]
    /\ map item_error (invalid_items rep) = [Some "'nameFr' is a required property"].
Proof.
  destruct (validation_failure_is_isolated
              Sample.world "events.csv" "event" "schemas/v1/event.json"
              [[("sourceId", "partner123"); ("id", "event123"); ("nameFr", "Valid Event");
                ("descriptionFr", "Valid Description"); ("status", "Scheduled")];
               [("sourceId", "partner123"); ("id", "event456");
                ("descriptionFr", "Invalid Description"); ("status", "InvalidStatus")]]
              eq_refl eq_refl) as (rep & Hrep & _).
  - intros row [<- | [<- | []]]; eexists; (split; [reflexivity|]).
    + left. reflexivity.
    + right. eexists. reflexivity.
  - exists rep. injection Hrep as <-. repeat split; reflexivity.
Defined.

End PipelineClaims.

(* ===================================================================== *)
(** ** The schema flattener and the template *)

Section Flattener.
Import PyStr csv_template_generator View.

Lemma for_each_ext {A S : Type} (body1 body2 : S -> A -> result S) xs s :
  (forall x, In x xs -> forall s', body1 s' x = body2 s' x) ->
  for_each body1 xs s = for_each body2 xs s.
Proof.
  revert s. induction xs as [|x xs IH]; intros s H; auto.
  simpl. rewrite (H x) by now left.
  destruct (body2 s x); auto. simpl. apply IH. intros; apply H; now right.
Qed.

Lemma for_each_app {A S : Type} (body : S -> A -> result S) xs ys s :
  for_each body (xs ++ ys) s = (s' <- for_each body xs s ;; for_each body ys s').
Proof.
  revert s. induction xs as [|x xs IH]; intros s; auto.
  simpl. destruct (body s x); auto. simpl. apply IH.
Qed.

(** A property that every step keeps is kept by the loop. *)
Lemma for_each_preserves {A S : Type} (P : S -> Prop) (body : S -> A -> result S) xs :
  (forall x s s', In x xs -> P s -> body s x = Ok s' -> P s') ->
  forall s s', P s -> for_each body xs s = Ok s' -> P s'.
Proof.
  induction xs as [|x xs IH]; intros Hbody s s' Hs H; simpl in H.
  - now injection H as <-.
  - destruct (body s x) as [s1|] eqn:E; [|discriminate]. simpl in H.
    apply (IH (fun y t t' Hy => Hbody y t t' (or_intror Hy)) s1 s'); auto.
    apply (Hbody x s s1); auto. now left.
Qed.

Lemma fold_left_preserves {A S : Type} (P : S -> Prop) (step : S -> A -> S) xs :
  (forall s x, P s -> P (step s x)) ->
  forall s, P s -> P (fold_left step xs s).
Proof. intros Hstep. induction xs as [|x xs IH]; intros s Hs; simpl; auto. Qed.

(** *** Heights: the calls of the flattener go down in the schema *)

Lemma json_height_member k v d : In (k, v) d -> json_height v < json_height (JObj d).
Proof.
  simpl. induction d as [|[k' v'] d IH]; intros H; [contradiction|].
  destruct H as [E | H]; simpl.
  - injection E as _ ->. lia.
  - specialize (IH H). lia.
Qed.

Lemma get_member {V : Type} k (d : Dict.dict V) v : Dict.get k d = Some v -> In (k, v) d.
Proof.
  induction d as [|[k' v'] d IH]; simpl; [discriminate|].
  destruct (String.eqb k' k) eqn:E.
  - apply String.eqb_eq in E. subst k'. intros H. injection H as ->. now left.
  - auto.
Qed.

Lemma properties_height schema properties entries key value :
  py_get_or_empty schema "properties" = Ok properties ->
  py_items properties = Ok entries ->
  In (key, value) entries ->
  json_height value + 2 <= json_height schema.
Proof.
  intros Hget Hitems Hin. destruct schema; try discriminate.
  unfold py_get_or_empty, py_get in Hget. simpl in Hget.
  destruct (Dict.get "properties" d) as [found|] eqn:E; injection Hget as <-.
  - apply get_member, json_height_member in E.
    destruct found; try discriminate. injection Hitems as <-.
    apply json_height_member in Hin. lia.
  - injection Hitems as <-. contradiction.
Qed.

Lemma flatten_property_ext recur1 recur2 parent_key flattened key value :
  (forall k fl, recur1 value k fl = recur2 value k fl) ->
  flatten_property recur1 parent_key flattened (key, value)
  = flatten_property recur2 parent_key flattened (key, value).
Proof.
  intros H. unfold flatten_property.
  destruct (has_key_and_type "properties" "object" value) as [[]|]; simpl; auto.
Qed.

Lemma flatten_within_stable calls1 calls2 schema parent_key flattened :
  json_height schema < calls1 -> json_height schema < calls2 ->
  flatten_within calls1 schema parent_key flattened
  = flatten_within calls2 schema parent_key flattened.
Proof.
  revert calls2 schema parent_key flattened.
  induction calls1 as [|calls1 IH]; intros calls2 schema parent_key flattened H1 H2;
    [lia|].
  destruct calls2 as [|calls2]; [lia|]. simpl.
  destruct (py_get_or_empty schema "properties") as [properties|] eqn:Hget; auto. simpl.
  destruct (py_items properties) as [entries|] eqn:Hitems; auto. simpl.
  apply for_each_ext. intros [key value] Hin fl.
  apply flatten_property_ext. intros k fl'.
  pose proof (properties_height _ _ _ _ _ Hget Hitems Hin).
  apply IH; lia.
Qed.

(** The calls [_flatten_schema] allows are enough: more of them change
    nothing, so the bound is never what ends a run. *)
Lemma flatten_within_enough calls schema parent_key flattened :
  json_height schema < calls ->
  flatten_within calls schema parent_key flattened
  = _flatten_schema schema parent_key flattened.
Proof. intros H. unfold _flatten_schema. apply flatten_within_stable; lia. Qed.

(** [_flatten_schema] unfolds as the source reads. *)
Lemma _flatten_schema_unfold schema parent_key flattened :
  _flatten_schema schema parent_key flattened
  = (properties <- py_get_or_empty schema "properties" ;;
     entries <- py_items properties ;;
     for_each (flatten_property _flatten_schema parent_key) entries flattened).
Proof.
  unfold _flatten_schema at 1. simpl.
  destruct (py_get_or_empty schema "properties") as [properties|] eqn:Hget; auto. simpl.
  destruct (py_items properties) as [entries|] eqn:Hitems; auto. simpl.
  apply for_each_ext. intros [key value] Hin fl.
  apply flatten_property_ext. intros k fl'.
  pose proof (properties_height _ _ _ _ _ Hget Hitems Hin).
  apply flatten_within_enough. lia.
Qed.

(** *** What assigning keeps, the flattener keeps *)

Section Preserved.
Variable P : Dict.dict json -> Prop.
Hypothesis P_set : forall k v d, P d -> P (Dict.set k v d).

Lemma flatten_property_preserves recur parent_key flattened property flattened' :
  (forall v k fl fl', P fl -> recur v k fl = Ok fl' -> P fl') ->
  P flattened ->
  flatten_property recur parent_key flattened property = Ok flattened' ->
  P flattened'.
Proof.
  intros Hrecur HP. destruct property as [key value]. unfold flatten_property.
  destruct (has_key_and_type "properties" "object" value) as [[]|]; simpl;
    [eauto | | discriminate].
  destruct (has_key_and_type "items" "array" value) as [[]|]; simpl;
    [| intros H; injection H as <-; auto | discriminate].
  destruct (py_get_or_empty value "items") as [items|]; simpl; [|discriminate].
  destruct (has_key_and_type "properties" "object" items) as [[]|]; simpl;
    [| | discriminate].
  - destruct (py_get_or_empty items "properties") as [item_properties|]; simpl;
      [|discriminate].
    destruct (py_items item_properties) as [item_entries|]; simpl; [|discriminate].
    intros H. injection H as <-. apply fold_left_preserves; auto.
  - destruct (String.eqb key "openingHours"); intros H; injection H as <-;
      repeat apply P_set; assumption.
Qed.

Lemma flatten_within_preserves calls schema parent_key flattened flattened' :
  P flattened ->
  flatten_within calls schema parent_key flattened = Ok flattened' ->
  P flattened'.
Proof.
  revert schema parent_key flattened flattened'.
  induction calls as [|calls IH]; intros schema parent_key flattened flattened' HP H;
    [discriminate|].
  revert H. cbn [flatten_within].
  destruct (py_get_or_empty schema "properties") as [properties|]; cbn [bind];
    [|discriminate].
  destruct (py_items properties) as [entries|]; cbn [bind]; [|discriminate].
  apply for_each_preserves; auto.
  intros property fl fl' _ Hfl. apply flatten_property_preserves; eauto.
Qed.

End Preserved.

Lemma _flatten_schema_NoDup schema flattened :
  _flatten_schema schema "" [] = Ok flattened -> NoDup (Dict.keys flattened).
Proof.
  apply (flatten_within_preserves (fun d => NoDup (Dict.keys d))).
  - intros. now apply NoDup_keys_set.
  - constructor.
Qed.

(** *** The bound on the calls is never reached *)

Lemma for_each_error {A S : Type} (body : S -> A -> result S) xs s e :
  for_each body xs s = Err e -> exists x s', In x xs /\ body s' x = Err e.
Proof.
  revert s. induction xs as [|x xs IH]; intros s H; simpl in H; [discriminate|].
  destruct (body s x) as [s1|e1] eqn:E; simpl in H.
  - destruct (IH _ H) as (y & s' & Hy & Hb). exists y, s'. split; [now right | auto].
  - injection H as <-. exists x, s. split; [now left | auto].
Qed.

Lemma py_in_error k container e : py_in k container = Err e -> e = TypeError.
Proof. destruct container; simpl; congruence. Qed.

Lemma py_get_error o k e : py_get o k = Err e -> e = AttributeError.
Proof. destruct o; simpl; congruence. Qed.

Lemma py_items_error o e : py_items o = Err e -> e = AttributeError.
Proof. destruct o; simpl; congruence. Qed.

Lemma py_get_or_empty_error o k e : py_get_or_empty o k = Err e -> e = AttributeError.
Proof.
  unfold py_get_or_empty. destruct (py_get o k) eqn:E; simpl; [discriminate|].
  intros H. injection H as <-. eapply py_get_error; eauto.
Qed.

Lemma has_key_and_type_error k ty v e :
  has_key_and_type k ty v = Err e -> e = TypeError \/ e = AttributeError.
Proof.
  unfold has_key_and_type. destruct (py_in k v) as [[]|e'] eqn:E; simpl.
  - destruct (py_get v "type") eqn:G; simpl; [discriminate|].
    intros H. injection H as <-. right. eapply py_get_error; eauto.
  - discriminate.
  - intros H. injection H as <-. left. eapply py_in_error; eauto.
Qed.

Ltac not_recursion_error E :=
  first [ apply has_key_and_type_error in E; destruct E; discriminate
        | apply py_get_or_empty_error in E; discriminate
        | apply py_items_error in E; discriminate ].

Lemma flatten_property_recursion_error recur parent_key flattened key value :
  flatten_property recur parent_key flattened (key, value) = Err RecursionError ->
  exists k fl, recur value k fl = Err RecursionError.
Proof.
  unfold flatten_property.
  destruct (has_key_and_type "properties" "object" value) as [[]|e1] eqn:E1; simpl;
    [eauto | | intros H; injection H as ->; not_recursion_error E1].
  destruct (has_key_and_type "items" "array" value) as [[]|e2] eqn:E2; simpl;
    [| discriminate | intros H; injection H as ->; not_recursion_error E2].
  destruct (py_get_or_empty value "items") as [items|e3] eqn:E3; simpl;
    [| intros H; injection H as ->; not_recursion_error E3].
  destruct (has_key_and_type "properties" "object" items) as [[]|e4] eqn:E4; simpl;
    [| | intros H; injection H as ->; not_recursion_error E4].
  - destruct (py_get_or_empty items "properties") as [item_properties|e5] eqn:E5; simpl;
      [| intros H; injection H as ->; not_recursion_error E5].
    destruct (py_items item_properties) as [item_entries|e6] eqn:E6; simpl;
      [discriminate | intros H; injection H as ->; not_recursion_error E6].
  - destruct (String.eqb key "openingHours"); discriminate.
Qed.

(** With calls enough for the height of the schema, [RecursionError] is not
    among the exceptions. *)
Lemma flatten_within_no_recursion_error calls schema parent_key flattened :
  json_height schema < calls ->
  flatten_within calls schema parent_key flattened <> Err RecursionError.
Proof.
  revert schema parent_key flattened.
  induction calls as [|calls IH]; intros schema parent_key flattened Hh; [lia|].
  cbn [flatten_within].
  destruct (py_get_or_empty schema "properties") as [properties|e1] eqn:E1; cbn [bind];
    [| intros H; injection H as ->; not_recursion_error E1].
  destruct (py_items properties) as [entries|e2] eqn:E2; cbn [bind];
    [| intros H; injection H as ->; not_recursion_error E2].
  intros H. apply for_each_error in H as ([key value] & fl & Hin & H).
  apply flatten_property_recursion_error in H as (k & fl' & H).
  pose proof (properties_height _ _ _ _ _ E1 E2 Hin).
  apply (IH value k fl'); [lia | exact H].
Qed.

Lemma _flatten_schema_no_recursion_error schema parent_key flattened :
  _flatten_schema schema parent_key flattened <> Err RecursionError.
Proof. apply flatten_within_no_recursion_error. lia. Qed.

(** *** The opening-hours case *)

Lemma array_of_leaves_is_no_object value :
  array_of_leaves value -> has_key_and_type "properties" "object" value = Ok false.
Proof.
  intros [H _]. unfold has_key_and_type in *.
  destruct value; simpl in *; try discriminate.
  - destruct (contains s "items"); discriminate.
  - destruct (existsb (is_str "items") elems); discriminate.
  - destruct (Dict.mem "items" d); simpl in H; [|discriminate].
    destruct (Dict.get "type" d) as [t|]; simpl in H; [|discriminate].
    destruct t; simpl in H; try discriminate.
    injection H as H. apply String.eqb_eq in H. subst s.
    now destruct (Dict.mem "properties" d).
Qed.

Lemma flatten_property_opening_hours recur parent_key flattened value :
  array_of_leaves value ->
  flatten_property recur parent_key flattened ("openingHours", value)
  = Ok (fold_left
          (hours_step (if is_empty parent_key then "openingHours"
                       else parent_key ++ ".openingHours"))
          days flattened).
Proof.
  intros Hleaves. pose proof (array_of_leaves_is_no_object _ Hleaves) as Hobj.
  destruct Hleaves as (Harr & items & Hitems & Hleaf).
  unfold flatten_property. rewrite Hobj. cbn [bind]. rewrite Harr. cbn [bind].
  rewrite Hitems. cbn [bind]. rewrite Hleaf. cbn [bind]. reflexivity.
Qed.

Lemma get_set_leaf k path (d : Dict.dict json) :
  k = path \/ Dict.get path d = Some time_leaf ->
  Dict.get path (Dict.set k time_leaf d) = Some time_leaf.
Proof.
  intros H. destruct (string_dec k path) as [->|Hne].
  - apply get_set_same.
  - rewrite get_set_other by assumption. tauto.
Qed.

Lemma hours_assigned new_key path ds flattened :
  In path (flat_map (day_paths new_key) ds) \/ Dict.get path flattened = Some time_leaf ->
  Dict.get path (fold_left (hours_step new_key) ds flattened) = Some time_leaf.
Proof.
  revert flattened. induction ds as [|day ds IH]; intros flattened H; simpl.
  - destruct H as [[] | H]; exact H.
  - apply IH. simpl in H. unfold hours_step.
    destruct H as [[<- | [<- | H]] | H]; auto.
    + right. apply get_set_leaf. right. apply get_set_leaf. now left.
    + right. apply get_set_leaf. now left.
    + right. apply get_set_leaf. right. apply get_set_leaf. now right.
Qed.

Lemma hours_others_kept new_key path ds flattened :
  ~ In path (flat_map (day_paths new_key) ds) ->
  Dict.get path (fold_left (hours_step new_key) ds flattened) = Dict.get path flattened.
Proof.
  revert flattened. induction ds as [|day ds IH]; intros flattened H; simpl; auto.
  simpl in H. rewrite IH by tauto. unfold hours_step.
  rewrite !get_set_other; auto; intros E; apply H; auto.
Qed.

(** C3, as stated, fails: this schema has an [openingHours] array field
    whose declared item type is an object with properties; flattening it
    gives the three item properties, and none of the fourteen day paths. *)
Lemma opening_hours_array_of_objects_is_not_synthesized :
  _flatten_schema Sample.hours_as_objects "" []
  = Ok [("openingHours.day", JObj [("type", JStr "string")]);
        ("openingHours.opens", JObj [("type", JStr "string")]);
        ("openingHours.closes", JObj [("type", JStr "string")])]
  /\ ~ (forall flattened,
          _flatten_schema Sample.hours_as_objects "" [] = Ok flattened ->
          forall path, In path (opening_hours_paths "openingHours") ->
                       In path (Dict.keys flattened)).
Proof.
  split; [reflexivity|]. intros H.
  specialize (H _ eq_refl "openingHours.Monday.opens" (or_introl eq_refl)).
  simpl in H. intuition discriminate.
Qed.

(** A path once assigned stays among the paths, whatever the loop goes on
    to do. *)
Lemma flatten_properties_keep_path parent_key entries flattened flattened' path :
  for_each (flatten_property _flatten_schema parent_key) entries flattened = Ok flattened' ->
  In path (Dict.keys flattened) -> In path (Dict.keys flattened').
Proof.
  intros H Hin. revert H.
  apply (for_each_preserves (fun d => In path (Dict.keys d))); [|exact Hin].
  intros property fl fl' _ Hfl Hstep.
  eapply (flatten_property_preserves (fun d => In path (Dict.keys d)));
    [ | | exact Hfl | exact Hstep ].
  - intros; now apply In_keys_set.
  - intros v k d d' Hd. unfold _flatten_schema.
    apply (flatten_within_preserves (fun d => In path (Dict.keys d))); auto.
    intros; now apply In_keys_set.
Qed.

(** The day paths of every [openingHours] array of leaves the flattener
    visits are among the flattened paths. *)
Lemma visited_hours_are_flattened schema parent_key key value new_key :
  visits schema parent_key key value new_key ->
  key = "openingHours" ->
  array_of_leaves value ->
  forall flattened flattened' path,
    _flatten_schema schema parent_key flattened = Ok flattened' ->
    In path (opening_hours_paths new_key) ->
    In path (Dict.keys flattened').
Proof.
  induction 1 as [schema parent_key entries key value Hprops Hin
                 | schema parent_key entries name object key value new_key
                     Hprops Hin Hobject Hvisits IH];
    intros Hkey Hleaves flattened flattened' path Hflat Hpath;
    rewrite _flatten_schema_unfold, Hprops in Hflat; cbn [bind py_items] in Hflat;
    apply in_split in Hin as (before & after & ->);
    rewrite for_each_app in Hflat;
    destruct (for_each (flatten_property _flatten_schema parent_key) before flattened)
      as [fl1|]; try discriminate Hflat;
    cbn [bind for_each] in Hflat.
  - subst key.
    rewrite (flatten_property_opening_hours _ _ _ _ Hleaves) in Hflat.
    cbn [bind] in Hflat.
    apply (flatten_properties_keep_path _ _ _ _ _ Hflat).
    apply get_In_keys.
    rewrite (hours_assigned _ path days fl1); [discriminate | left; exact Hpath].
  - unfold flatten_property at 1 in Hflat. rewrite Hobject in Hflat.
    cbn [bind] in Hflat.
    destruct (_flatten_schema object
                (if is_empty parent_key then name else parent_key ++ "." ++ name) fl1)
      as [fl2|] eqn:Hnested; [|discriminate Hflat].
    cbn [bind] in Hflat.
    apply (flatten_properties_keep_path _ _ _ _ _ Hflat).
    exact (IH Hkey Hleaves fl1 fl2 path Hnested Hpath).
Qed.

Lemma opening_hours_paths_map new_key :
  opening_hours_paths new_key
  = map (append new_key)
        (flat_map (fun day => ["." ++ day ++ ".opens"; "." ++ day ++ ".closes"]) days).
Proof. reflexivity. Qed.

Lemma NoDup_map_append (a : string) (l : list string) :
  NoDup l -> NoDup (map (append a) l).
Proof.
  induction 1 as [|x l Hx Hl IH]; simpl; constructor; auto.
  intros Hin. apply in_map_iff in Hin as (y & E & Hy).
  apply append_inj_l in E. now subst y.
Qed.

(** C3, amended. Let [openingHours] be a property the flattener visits: a
    property of the schema, or of an object with properties nested in it
    (not a property of the items of an array). Let its schema have the key
    [items] and the type ["array"], and let the test for an array of
    objects, ['properties' in items and items.get('type') == 'object'],
    be false of its items: so it is for items that are a JSON object without
    [properties] or with another type, whatever leaf type they declare.
    Write [new_key] for the path of the property: [openingHours] under the
    parent key, dotted.
    At this property the flattener assigns, for each of the seven days
    Monday to Sunday, the two paths [<new_key>.<Day>.opens] and
    [<new_key>.<Day>.closes] to the leaf [{"type": "string", "format":
    "time"}] and changes no other path. These paths are fourteen and
    distinct. When flattening the schema returns, the fourteen paths are
    among the flattened paths; when the field is the only property of the
    schema, flattening it from the top returns and they are the whole
    result, in the order of the days. *)
Theorem opening_hours_of_leaves_gives_fourteen_paths :
  (forall recur parent_key flattened value,
      array_of_leaves value ->
      exists flattened',
        flatten_property recur parent_key flattened ("openingHours", value) = Ok flattened'
        /\ (forall path,
               In path (opening_hours_paths
                          (if is_empty parent_key then "openingHours"
                           else parent_key ++ ".openingHours")) ->
               Dict.get path flattened' = Some time_leaf)
        /\ (forall path,
               ~ In path (opening_hours_paths
                            (if is_empty parent_key then "openingHours"
                             else parent_key ++ ".openingHours")) ->
               Dict.get path flattened' = Dict.get path flattened))
  /\ (forall schema parent_key value new_key flattened flattened',
         visits schema parent_key "openingHours" value new_key ->
         array_of_leaves value ->
         _flatten_schema schema parent_key flattened = Ok flattened' ->
         forall path, In path (opening_hours_paths new_key) ->
                      In path (Dict.keys flattened'))
  /\ (forall schema value,
         py_get_or_empty schema "properties" = Ok (JObj [("openingHours", value)]) ->
         array_of_leaves value ->
         _flatten_schema schema "" []
         = Ok (map (fun path => (path, time_leaf)) (opening_hours_paths "openingHours")))
  /\ (forall new_key, length (opening_hours_paths new_key) = 14)
  /\ (forall new_key, NoDup (opening_hours_paths new_key)).
Proof.
  split; [|split; [|split; [|split]]].
  - intros recur parent_key flattened value Hleaves.
    rewrite (flatten_property_opening_hours _ _ _ _ Hleaves).
    eexists. split; [reflexivity|]. split; intros path Hpath.
    + apply hours_assigned. now left.
    + now apply hours_others_kept.
  - intros schema parent_key value new_key flattened flattened' Hvisits Hleaves Hflat
           path Hpath.
    exact (visited_hours_are_flattened _ _ _ _ _ Hvisits eq_refl Hleaves _ _ _ Hflat Hpath).
  - intros schema value Hprops Hleaves. rewrite _flatten_schema_unfold, Hprops.
    cbn [bind py_items for_each].
    now rewrite (flatten_property_opening_hours _ _ _ _ Hleaves).
  - intros new_key. reflexivity.
  - intros new_key. rewrite opening_hours_paths_map. apply NoDup_map_append.
    repeat constructor; simpl; intuition discriminate.
Qed.

Lemma opening_hours_of_leaves_gives_fourteen_paths_witness :
  array_of_leaves (JObj [("type", JStr "array"); ("items", JObj [("type", JStr "string")])])
  /\ (forall path, In path (opening_hours_paths "venue.openingHours") ->
        exists flattened,
          _flatten_schema Sample.venue_schema "" [] = Ok flattened
          /\ In path (Dict.keys flattened)).
Proof.
  assert (Hleaves : array_of_leaves
            (JObj [("type", JStr "array"); ("items", JObj [("type", JStr "string")])])).
  { split; [reflexivity|]. eexists. split; reflexivity. }
  split; [exact Hleaves|].
  intros path Hpath.
  destruct (_flatten_schema Sample.venue_schema "" []) as [flattened|e] eqn:E;
    [|discriminate E].
  exists flattened. split; [reflexivity|].
  refine (proj1 (proj2 opening_hours_of_leaves_gives_fourteen_paths)
            Sample.venue_schema "" _ "venue.openingHours" [] flattened
            _ Hleaves E path Hpath).
  eapply (visits_nested Sample.venue_schema "" _ "venue");
    [reflexivity | simpl; tauto | reflexivity |].
  eapply (visits_property _ "venue" _ "openingHours"); [reflexivity | simpl; tauto].
Defined.

(** *** The template: headers and sample row *)

Lemma mem_false_not_In {V : Type} k (d : Dict.dict V) :
  ~ In k (Dict.keys d) -> Dict.mem k d = false.
Proof.
  intros H. unfold Dict.mem. destruct (Dict.get k d) eqn:E; auto.
  exfalso. apply H, get_In_keys. congruence.
Qed.

(** Assigning pairs with new, distinct keys appends the keys in order. *)
Lemma keys_merge_fresh {V : Type} (kvs d : Dict.dict V) :
  NoDup (Dict.keys d ++ map fst kvs) ->
  Dict.keys (Dict.merge d kvs) = (Dict.keys d ++ map fst kvs)%list.
Proof.
  unfold Dict.merge. revert d. induction kvs as [|[k v] kvs IH]; intros d H; simpl.
  - now rewrite app_nil_r.
  - assert (Hk : ~ In k (Dict.keys d)).
    { apply NoDup_remove_2 in H. intros Hin. apply H, in_or_app. now left. }
    assert (E : Dict.keys (Dict.set k v d) = (Dict.keys d ++ [k])%list)
      by (now rewrite keys_set, (mem_false_not_In _ _ Hk)).
    rewrite IH; rewrite E, <- app_assoc; [reflexivity|].
    simpl. simpl in H.
    apply NoDup_remove_1 in H as H1. apply NoDup_remove_2 in H as H2.
    clear - H1 H2. induction (Dict.keys d) as [|k0 ks IHks]; simpl in *.
    + now constructor.
    + inversion H1 as [|? ? Hn Hd]; subst. constructor.
      * intros Hin. apply in_app_or in Hin as [Hin | [<- | Hin]].
        -- apply Hn, in_or_app. now left.
        -- apply H2. now left.
        -- apply Hn, in_or_app. now right.
      * apply IHks; auto.
Qed.

Lemma get_merge_computed (g : string -> string) hs h (d : Dict.dict string) :
  In h hs \/ Dict.get h d = Some (g h) ->
  Dict.get h (Dict.merge d (map (fun header => (header, g header)) hs)) = Some (g h).
Proof.
  unfold Dict.merge. revert d. induction hs as [|h0 hs IH]; intros d H; simpl.
  - destruct H as [[] | H]; exact H.
  - apply IH. destruct (string_dec h0 h) as [->|Hne].
    + right. apply get_set_same.
    + rewrite get_set_other by assumption.
      destruct H as [[E | H] | H]; [contradiction | now left | now right].
Qed.

(** C8. The headers of the template are the paths of the flattened schema,
    as many and in the order the flattener assigned them, nothing sorted;
    the sample row has exactly the headers as its keys, and maps each header
    to its example, which is the empty string when the table of examples has
    none. When the flattener raises, so does the template. What
    [generate_template] hands to the writer is the row of the headers and
    the row of these values. *)
Theorem template_headers_are_the_flattened_paths :
  (forall schema schema_name flattened,
      _flatten_schema schema "" [] = Ok flattened ->
      exists headers sample_row,
        template_parts schema schema_name = Ok (headers, sample_row)
        /\ headers = map fst flattened
        /\ length headers = length flattened
        /\ Dict.keys sample_row = headers
        /\ (forall header, In header headers ->
              exists v, Dict.get header sample_row = Some v
                        /\ v = sample_value schema_name header
                        /\ (Dict.get header (sample_data schema_name) = None
                            -> v = EmptyString))
        /\ row_values headers sample_row = map (sample_value schema_name) headers)
  /\ (forall schema schema_name e,
         _flatten_schema schema "" [] = Err e ->
         template_parts schema schema_name = Err e)
  /\ (forall w schema_name text,
         generate_template w schema_name = Ok text ->
         exists schema_path schema flattened,
           Dict.get schema_name (get_available_schemas w) = Some schema_path
           /\ json_load w schema_path = Ok schema
           /\ _flatten_schema schema "" [] = Ok flattened
           /\ text = csv_text w [map fst flattened;
                                 map (sample_value schema_name) (map fst flattened)]).
Proof.
  assert (Hvalues : forall schema_name headers,
    row_values headers (_create_sample_row headers schema_name)
    = map (sample_value schema_name) headers).
  { intros schema_name headers. unfold row_values, _create_sample_row, Dict.of_pairs.
    apply map_ext_in. intros h Hh. now rewrite get_merge_computed by now left. }
  split; [|split].
  - intros schema schema_name flattened Hflat.
    unfold template_parts. rewrite Hflat. cbn [bind].
    unfold _schema_to_csv_headers.
    eexists _, _. split; [reflexivity|].
    split; [reflexivity|]. split; [apply length_map|]. split; [|split].
    + unfold _create_sample_row, Dict.of_pairs. rewrite keys_merge_fresh.
      * simpl. rewrite map_map. simpl. apply map_id.
      * simpl. rewrite map_map. simpl. rewrite map_id.
        exact (_flatten_schema_NoDup _ _ Hflat).
    + intros header Hheader. exists (sample_value schema_name header).
      split; [|split]; auto.
      * unfold _create_sample_row, Dict.of_pairs. apply get_merge_computed. now left.
      * unfold sample_value. now intros ->.
    + apply Hvalues.
  - intros schema schema_name e Hflat. unfold template_parts. now rewrite Hflat.
  - intros w schema_name text. unfold generate_template, _generate_csv_template, _load_schema.
    destruct (Dict.get schema_name (get_available_schemas w)) as [schema_path|];
      [|discriminate].
    destruct (json_load w schema_path) as [schema|] eqn:Hload; cbn [bind]; [|discriminate].
    unfold template_parts.
    destruct (_flatten_schema schema "" []) as [flattened|] eqn:Hflat; cbn [bind];
      [|discriminate].
    intros H. injection H as <-.
    exists schema_path, schema, flattened. rewrite Hvalues. auto.
Qed.

Lemma template_headers_are_the_flattened_paths_witness :
  exists flattened headers sample_row,
    _flatten_schema Sample.place_schema "" [] = Ok flattened
    /\ template_parts Sample.place_schema "place" = Ok (headers, sample_row)
    /\ length headers = 18
    /\ length headers = length flattened
    /\ Dict.keys sample_row = headers
    /\ Dict.get "address.city" sample_row = Some EmptyString
    /\ Dict.get "id" sample_row = Some "place123".
Proof.
  destruct (_flatten_schema Sample.place_schema "" []) as [flattened|e] eqn:E;
    [|discriminate E].
  destruct (proj1 template_headers_are_the_flattened_paths
              Sample.place_schema "place" flattened E)
    as (headers & sample_row & Hparts & Hheaders & Hlen & Hkeys & _).
  exists flattened, headers, sample_row.
  injection E as <-. injection Hparts as <- <-.
  repeat split; solve [reflexivity | assumption].
Defined.

End Flattener.




(* ===================================================================== *)
(** ** Beyond the claims: reading and transcoding *)

Section Reading.
Import PyStr csv_importer View Aux.

Lemma set_fresh {V : Type} k (v : V) d :
  ~ In k (Dict.keys d) -> Dict.set k v d = (d ++ [(k, v)])%list.
Proof.
  induction d as [|[k' v'] d IH]; intros H; simpl; auto.
  destruct (String.eqb k' k) eqn:E.
  - apply String.eqb_eq in E. subst k'. exfalso. apply H. now left.
  - rewrite IH; auto. intros Hin. apply H. now right.
Qed.

(** Assigning pairs with new, distinct keys appends them. *)
Lemma merge_fresh {V : Type} (kvs d : Dict.dict V) :
  NoDup (Dict.keys d ++ map fst kvs) -> Dict.merge d kvs = (d ++ kvs)%list.
Proof.
  unfold Dict.merge. revert d. induction kvs as [|[k v] kvs IH]; intros d H; simpl.
  - now rewrite app_nil_r.
  - assert (Hk : ~ In k (Dict.keys d)).
    { apply NoDup_remove_2 in H. intros Hin. apply H, in_or_app. now left. }
    rewrite (set_fresh k v d Hk), IH, <- app_assoc; [reflexivity|].
    unfold Dict.keys in *. rewrite map_app, <- app_assoc. exact H.
Qed.

Lemma of_pairs_distinct {V : Type} (kvs : Dict.dict V) :
  NoDup (map fst kvs) -> Dict.of_pairs kvs = kvs.
Proof. intros H. unfold Dict.of_pairs. now rewrite merge_fresh. Qed.

Lemma clean_row_text cells :
  clean_row (text_row cells) = Ok (filter nonblank cells).
Proof.
  induction cells as [|[k v] cells IH]; auto.
  simpl. rewrite IH. simpl. unfold nonblank. simpl.
  now destruct (is_empty (strip v)).
Qed.

Lemma lstrip_all_space s : all_space s = true -> lstrip s = EmptyString.
Proof.
  induction s as [|c s IH]; auto. simpl.
  intros H. apply andb_true_iff in H as [-> H]. auto.
Qed.

(** X1. [read_csv_file] on lines whose cells are all text keeps the lines,
    one row per line in order, and in each line exactly the cells that hold
    something else than whitespace; an empty cell and a cell of blanks are
    both dropped, so the field is absent from the row. *)
Theorem read_csv_file_drops_blank_cells
        (w : world) (file_path : string) (lines : list (list (string * string))) :
  dict_reader w file_path = Ok (map text_row lines) ->
  read_csv_file w file_path
  = Ok (map (fun cells => Dict.of_pairs (filter nonblank cells)) lines)
  /\ (forall k v, all_space v = true -> nonblank (k, v) = false)
  /\ (forall cells, NoDup (map fst cells) ->
        Dict.of_pairs (filter nonblank cells) = filter nonblank cells).
Proof.
  intros Hread. split; [|split].
  - unfold read_csv_file. rewrite Hread. cbn [bind]. clear Hread.
    induction lines as [|cells lines IH]; auto.
    simpl. rewrite clean_row_text. cbn [bind]. now rewrite IH.
  - intros k v Hv. unfold nonblank, strip. simpl. now rewrite lstrip_all_space.
  - intros cells Hcells. apply of_pairs_distinct.
    induction cells as [|[k v] cells IH]; simpl; [constructor|].
    inversion Hcells as [|? ? Hk Hd]; subst.
    destruct (nonblank (k, v)); auto. simpl. constructor; auto.
    intros Hin. apply Hk. apply in_map_iff in Hin as ([k' v'] & E & Hin).
    apply filter_In in Hin as [Hin _]. apply in_map_iff. exists (k', v'). auto.
Qed.

Lemma read_csv_file_drops_blank_cells_witness :
  read_csv_file Sample.world "events.csv"
  = Ok [[("sourceId", "partner123"); ("id", "event123"); ("nameFr", "Valid Event");
         ("descriptionFr", "Valid Description"); ("status", "Scheduled")];
        [("sourceId", "partner123"); ("id", "event456");
         ("descriptionFr", "Invalid Description"); ("status", "InvalidStatus")]].
Proof.
  exact (proj1 (read_csv_file_drops_blank_cells Sample.world "events.csv"
    [[("sourceId", "partner123"); ("id", "event123"); ("nameFr", "Valid Event");
      ("descriptionFr", "Valid Description"); ("status", "Scheduled")];
     [("sourceId", "partner123"); ("id", "event456"); ("nameFr", "");
      ("descriptionFr", "Invalid Description"); ("status", "InvalidStatus")]]
    eq_refl)).
Defined.

Lemma clean_row_not_text row k c :
  In (k, c) row -> not_text c -> clean_row row = Err AttributeError.
Proof.
  induction row as [|[k' c'] row IH]; intros Hin Hc; [contradiction|].
  destruct Hin as [E | Hin].
  - injection E as -> ->. destruct c; simpl in *; tauto.
  - destruct c'; simpl; auto. now rewrite (IH Hin Hc).
Qed.

Lemma clean_row_error row e : clean_row row = Err e -> e = AttributeError.
Proof.
  induction row as [|[k c] row IH]; simpl; [discriminate|].
  destruct c; try (intros H; now injection H as <-).
  destruct (clean_row row); simpl; [discriminate|].
  intros H. injection H as <-. now apply IH.
Qed.

(** X2. A line that is too short or too long (a cell that is [None], or the
    list of surplus values) makes [read_csv_file] raise [AttributeError],
    wherever the line stands in the file; [import_and_validate_csv] for a
    known schema then raises it too and validates no row. *)
Theorem read_csv_file_raises_on_ragged_line
        (w : world) (file_path schema_name : string)
        (rows : list (list (string * cell))) (row : list (string * cell))
        (k : string) (c : cell) :
  dict_reader w file_path = Ok rows ->
  In row rows -> In (k, c) row -> not_text c ->
  read_csv_file w file_path = Err AttributeError
  /\ (Dict.mem schema_name (get_available_schemas w) = true ->
      import_and_validate_csv w file_path schema_name = Err AttributeError).
Proof.
  intros Hread Hrow Hcell Hc.
  assert (H : read_csv_file w file_path = Err AttributeError).
  { unfold read_csv_file. rewrite Hread. cbn [bind]. clear Hread.
    induction rows as [|row0 rows IH]; [contradiction|]. simpl.
    destruct (clean_row row0) as [cleaned|e] eqn:E0; cbn [bind].
    - destruct Hrow as [-> | Hrow].
      + rewrite (clean_row_not_text _ _ _ Hcell Hc) in E0. discriminate.
      + now rewrite (IH Hrow).
    - now rewrite (clean_row_error _ _ E0). }
  split; [exact H|].
  intros Hmem. unfold import_and_validate_csv, Dict.mem in *.
  destruct (Dict.get schema_name (get_available_schemas w)); [|discriminate].
  now rewrite H.
Qed.

Lemma read_csv_file_raises_on_ragged_line_witness :
  import_and_validate_csv
    {| schema_files := [("event", "event.json")];
       dict_reader := fun _ => Ok [[("id", CellStr "e1"); ("nameFr", CellStr "A")];
                                   [("id", CellStr "e2"); ("nameFr", CellNone)]];
       json_load := fun _ => Ok JNull;
       validate := Sample.requires_name |} "short.csv" "event"
  = Err AttributeError.
Proof.
  refine (proj2 (read_csv_file_raises_on_ragged_line
                   {| schema_files := [("event", "event.json")];
                      dict_reader := fun _ => Ok [[("id", CellStr "e1"); ("nameFr", CellStr "A")];
                                                  [("id", CellStr "e2"); ("nameFr", CellNone)]];
                      json_load := fun _ => Ok JNull;
                      validate := Sample.requires_name |}
                   "short.csv" "event"
                   [[("id", CellStr "e1"); ("nameFr", CellStr "A")];
                    [("id", CellStr "e2"); ("nameFr", CellNone)]]
                   [("id", CellStr "e2"); ("nameFr", CellNone)] "nameFr" CellNone
                   eq_refl _ _ I) eq_refl); simpl; tauto.
Defined.

Lemma for_each_undotted flat acc :
  (forall kv, In kv flat -> contains (fst kv) "." = false) ->
  for_each transform_step flat acc = Ok (Dict.merge acc (map coerced flat)).
Proof.
  revert acc. induction flat as [|[k v] flat IH]; intros acc H; auto.
  pose proof (H (k, v) (or_introl eq_refl)) as Hk. cbn [fst] in Hk.
  cbn [for_each transform_step]. rewrite Hk. cbn [bind].
  rewrite IH by (intros; apply H; now right). reflexivity.
Qed.

(** X3. On a row in which no key has a dot, [transform_flat_to_nested]
    raises nothing and nests nothing: the record has the same keys in the
    same order, and each value is the coerced cell. *)
Theorem transform_flat_to_nested_keeps_undotted_keys (flat : Dict.dict string) :
  (forall kv, In kv flat -> contains (fst kv) "." = false) ->
  NoDup (Dict.keys flat) ->
  transform_flat_to_nested flat
  = Ok (map (fun kv => (fst kv, process_value (snd kv) (fst kv))) flat)
  /\ forall nested, transform_flat_to_nested flat = Ok nested ->
                    Dict.keys nested = Dict.keys flat.
Proof.
  intros Hdots Hkeys.
  assert (E : transform_flat_to_nested flat = Ok (map coerced flat)).
  { unfold transform_flat_to_nested. rewrite for_each_undotted by assumption.
    f_equal. apply merge_fresh. simpl. rewrite map_map. exact Hkeys. }
  split; [exact E|].
  intros nested H. rewrite E in H. injection H as <-.
  unfold Dict.keys. now rewrite map_map.
Qed.

Lemma transform_flat_to_nested_keeps_undotted_keys_witness :
  transform_flat_to_nested [("id", "123"); ("name", "Test"); ("isActive", "yes")]
  = Ok [("id", VInt 123); ("name", VStr "Test"); ("isActive", VBool true)].
Proof.
  refine (proj1 (transform_flat_to_nested_keeps_undotted_keys
                   [("id", "123"); ("name", "Test"); ("isActive", "yes")] _ _)).
  - intros kv [<- | [<- | [<- | []]]]; reflexivity.
  - repeat constructor; simpl; intuition discriminate.
Defined.

Lemma assign_path_error parts v d e : assign_path parts v d = Err e -> e = TypeError.
Proof.
  revert d. induction parts as [|part rest IH]; intros d; [discriminate|].
  destruct rest as [|part' rest]; [discriminate|].
  remember (part' :: rest) as tail eqn:Etail.
  assert (Hstep : forall (A : Type) (x y : A),
             match tail with [] => x | _ :: _ => y end = y)
    by (intros; subst tail; reflexivity).
  simpl. rewrite Hstep.
  set (current := if negb (Dict.mem part d) then Dict.set part (VDict []) d else d).
  destruct (Dict.get part current) as [[| | | | | |inner]|];
    try (intros H; now injection H as <-).
  destruct (assign_path tail v inner) as [inner'|e'] eqn:E; cbn [bind]; [discriminate|].
  intros H. injection H as <-. eauto.
Qed.

(** X4. The only exception [transform_flat_to_nested] raises is [TypeError],
    and only a row with a dotted key can raise it. *)
Theorem transform_flat_to_nested_raises_only_TypeError (flat : Dict.dict string) (e : exn) :
  transform_flat_to_nested flat = Err e ->
  e = TypeError
  /\ exists key value, In (key, value) flat /\ contains key "." = true.
Proof.
  unfold transform_flat_to_nested. intros H.
  apply for_each_error in H as ([key value] & nested & Hin & H).
  unfold transform_step in H.
  destruct (contains key ".") eqn:E; [|discriminate].
  split; [eapply assign_path_error; eauto | eauto].
Qed.

Lemma transform_flat_to_nested_raises_only_TypeError_witness :
  exists key value,
    In (key, value) [("a", "x"); ("a.b", "6")] /\ contains key "." = true.
Proof.
  exact (proj2 (transform_flat_to_nested_raises_only_TypeError
                  [("a", "x"); ("a.b", "6")] TypeError eq_refl)).
Defined.

(** *** Decimal digits *)

Ltac by_digit c := destruct c as [[] [] [] [] [] [] [] []]; reflexivity || discriminate.

Lemma digit_facts c :
  is_digit c = true ->
  is_space c = false /\ Ascii.eqb c "_" = false /\ Ascii.eqb c "-" = false
  /\ Ascii.eqb c "+" = false /\ Ascii.eqb c "," = false /\ Ascii.eqb c "." = false
  /\ lower_char c = c.
Proof. intros H. repeat split; revert H; by_digit c. Qed.

Lemma all_digits_text s :
  all_digits s = true ->
  strip s = s /\ lower s = s /\ contains s "," = false /\ contains s "." = false
  /\ PyNum.take_sign s = (false, s) /\ PyNum.take_digits s = (s, EmptyString).
Proof.
  intros H.
  assert (Hl : lstrip s = s).
  { destruct s as [|c s]; auto. simpl in *. apply andb_true_iff in H as [Hc _].
    now rewrite (proj1 (digit_facts c Hc)). }
  assert (Hr : rstrip s = s).
  { induction s as [|c s IH]; auto. simpl in *. apply andb_true_iff in H as [Hc Hs].
    rewrite (proj1 (digit_facts c Hc)). cbn [andb]. f_equal. apply IH; auto.
    destruct s as [|c' s]; auto. simpl in *. apply andb_true_iff in Hs as [Hc' _].
    now rewrite (proj1 (digit_facts c' Hc')). }
  split; [unfold strip; now rewrite Hl, Hr|]. clear Hl Hr.
  split; [|split; [|split; [|split]]].
  - induction s as [|c s IH]; auto. simpl in *. apply andb_true_iff in H as [Hc Hs].
    destruct (digit_facts c Hc) as (_ & _ & _ & _ & _ & _ & ->). now rewrite IH.
  - induction s as [|c s IH]; auto. rewrite contains_char_cons.
    simpl in H. apply andb_true_iff in H as [Hc Hs].
    destruct (digit_facts c Hc) as (_ & _ & _ & _ & -> & _). auto.
  - induction s as [|c s IH]; auto. rewrite contains_char_cons.
    simpl in H. apply andb_true_iff in H as [Hc Hs].
    destruct (digit_facts c Hc) as (_ & _ & _ & _ & _ & -> & _). auto.
  - destruct s as [|c s]; auto. simpl in *. apply andb_true_iff in H as [Hc _].
    destruct (digit_facts c Hc) as (_ & _ & -> & -> & _). reflexivity.
  - induction s as [|c s IH]; auto. simpl in *. apply andb_true_iff in H as [Hc Hs].
    now rewrite Hc, (IH Hs).
Qed.

Lemma remove_underscores_digits prev s :
  all_digits s = true ->
  (forall p, prev = Some p -> Ascii.eqb p "_" = false) ->
  PyNum.remove_underscores prev s = Some s.
Proof.
  revert prev. induction s as [|c s IH]; intros prev H Hprev; simpl.
  - destruct prev as [p|]; auto. now rewrite (Hprev p eq_refl).
  - simpl in H. apply andb_true_iff in H as [Hc Hs].
    destruct (digit_facts c Hc) as (_ & Hu & _). rewrite Hu, Hc. cbn [negb].
    rewrite andb_false_r, IH; auto.
    intros p E. now injection E as <-.
Qed.

Lemma digit_is_no_blank c : is_digit c = true -> PyNum.is_blank c = false.
Proof. by_digit c. Qed.

Lemma all_digits_trim s : all_digits s = true -> PyNum.trim s = s.
Proof.
  intros H. unfold PyNum.trim.
  assert (Hl : PyNum.lskip s = s).
  { destruct s as [|c s]; auto. simpl in *. apply andb_true_iff in H as [Hc _].
    now rewrite (digit_is_no_blank c Hc). }
  rewrite Hl. clear Hl.
  induction s as [|c s IH]; auto. simpl in *. apply andb_true_iff in H as [Hc Hs].
  rewrite (digit_is_no_blank c Hc). cbn [andb]. f_equal. now apply IH.
Qed.

Lemma py_int_digits s :
  all_digits s = true -> s <> EmptyString ->
  String.length s <= PyNum.max_str_digits ->
  PyNum.py_int s = Some (Z.of_N (PyNum.digits_value 0 s)).
Proof.
  intros H Hne Hlen.
  destruct (all_digits_text s H) as (_ & _ & _ & _ & Hsign & Hdigits).
  unfold PyNum.py_int.
  rewrite (all_digits_trim s H), remove_underscores_digits, Hsign, Hdigits; auto;
    [|discriminate].
  rewrite (proj2 (Nat.ltb_ge _ _) Hlen).
  now destruct s.
Qed.

Lemma digits_value_of_uint d acc :
  PyNum.digits_value (N.of_nat acc) (NilEmpty.string_of_uint d)
  = N.of_nat (Nat.of_uint_acc d acc).
Proof.
  revert acc. induction d; intros acc;
    cbn [NilEmpty.string_of_uint PyNum.digits_value Nat.of_uint_acc]; auto;
    rewrite Nat.tail_mul_spec, <- IHd; f_equal;
    match goal with
    | |- context [PyNum.digit_value ?c] =>
        let v := eval vm_compute in (PyNum.digit_value c) in
        change (PyNum.digit_value c) with v
    end; lia.
Qed.

Lemma all_digits_of_uint d : all_digits (NilEmpty.string_of_uint d) = true.
Proof. induction d; simpl; auto. Qed.

Lemma str_nat_digits n :
  all_digits (PyFmt.str_nat n) = true
  /\ PyFmt.str_nat n <> EmptyString
  /\ PyNum.digits_value 0 (PyFmt.str_nat n) = N.of_nat n.
Proof.
  unfold PyFmt.str_nat.
  pose proof (DecimalNat.Unsigned.of_to n) as Hn. unfold Nat.of_uint in Hn.
  destruct (Nat.to_uint n) as [|d|d|d|d|d|d|d|d|d|d].
  - simpl in Hn. subst n. repeat split. discriminate.
  - split; [exact (all_digits_of_uint (Decimal.D0 d)) | split; [discriminate|]].
    rewrite <- Hn. exact (digits_value_of_uint (Decimal.D0 d) 0).
  - split; [exact (all_digits_of_uint (Decimal.D1 d)) | split; [discriminate|]].
    rewrite <- Hn. exact (digits_value_of_uint (Decimal.D1 d) 0).
  - split; [exact (all_digits_of_uint (Decimal.D2 d)) | split; [discriminate|]].
    rewrite <- Hn. exact (digits_value_of_uint (Decimal.D2 d) 0).
  - split; [exact (all_digits_of_uint (Decimal.D3 d)) | split; [discriminate|]].
    rewrite <- Hn. exact (digits_value_of_uint (Decimal.D3 d) 0).
  - split; [exact (all_digits_of_uint (Decimal.D4 d)) | split; [discriminate|]].
    rewrite <- Hn. exact (digits_value_of_uint (Decimal.D4 d) 0).
  - split; [exact (all_digits_of_uint (Decimal.D5 d)) | split; [discriminate|]].
    rewrite <- Hn. exact (digits_value_of_uint (Decimal.D5 d) 0).
  - split; [exact (all_digits_of_uint (Decimal.D6 d)) | split; [discriminate|]].
    rewrite <- Hn. exact (digits_value_of_uint (Decimal.D6 d) 0).
  - split; [exact (all_digits_of_uint (Decimal.D7 d)) | split; [discriminate|]].
    rewrite <- Hn. exact (digits_value_of_uint (Decimal.D7 d) 0).
  - split; [exact (all_digits_of_uint (Decimal.D8 d)) | split; [discriminate|]].
    rewrite <- Hn. exact (digits_value_of_uint (Decimal.D8 d) 0).
  - split; [exact (all_digits_of_uint (Decimal.D9 d)) | split; [discriminate|]].
    rewrite <- Hn. exact (digits_value_of_uint (Decimal.D9 d) 0).
Qed.

(** X6. Text made of decimal digits, other than ["0"] and ["1"], is coerced
    to the integer it denotes, whatever the field name (leading zeros are
    read as part of the number, so ["01"] is the integer 1 where ["1"] is
    the boolean). In particular the decimal text of every natural number
    from 2 on coerces back to that number. The texts are taken within the
    4300 digits CPython's [int] accepts by default. *)
Theorem process_value_reads_decimal_digits :
  (forall value key,
      Aux.all_digits value = true -> value <> EmptyString ->
      value <> "0" -> value <> "1" ->
      String.length value <= 4300 ->
      process_value value key = VInt (Z.of_N (PyNum.digits_value 0 value)))
  /\ (forall n key,
         2 <= n -> String.length (PyFmt.str_nat n) <= 4300 ->
         process_value (PyFmt.str_nat n) key = VInt (Z.of_nat n))
  /\ (forall key, process_value "01" key = VInt 1).
Proof.
  assert (Hgen : forall value key,
      all_digits value = true -> value <> EmptyString ->
      value <> "0" -> value <> "1" ->
      String.length value <= 4300 ->
      process_value value key = VInt (Z.of_N (PyNum.digits_value 0 value))).
  { intros value key H Hne H0 H1 Hlen.
    destruct (all_digits_text value H) as (_ & Hlower & Hcomma & Hdot & _).
    assert (Htok : forall tok, all_digits tok = false -> String.eqb value tok = false).
    { intros tok Htok. apply String.eqb_neq. intros ->. congruence. }
    unfold process_value. rewrite Hlower, Hcomma, Hdot. cbn [existsb].
    rewrite (Htok "true"), (Htok "yes"), (Htok "false"), (Htok "no") by reflexivity.
    rewrite (proj2 (String.eqb_neq value "")), (proj2 (String.eqb_neq value "1")),
      (proj2 (String.eqb_neq value "0")) by assumption.
    cbn [orb andb]. now rewrite py_int_digits. }
  split; [intros; now apply Hgen | split].
  - intros n key Hn Hlen. destruct (str_nat_digits n) as (Hd & Hne & Hv).
    rewrite Hgen; auto.
    + now rewrite Hv, nat_N_Z.
    + intros E. rewrite E in Hv. change (PyNum.digits_value 0 "0") with 0%N in Hv. lia.
    + intros E. rewrite E in Hv. change (PyNum.digits_value 0 "1") with 1%N in Hv. lia.
  - intros key. reflexivity.
Qed.

Lemma process_value_reads_decimal_digits_witness :
  process_value "0042" "count" = VInt 42 /\ process_value (PyFmt.str_nat 2024) "year" = VInt 2024.
Proof.
  split.
  - refine (proj1 process_value_reads_decimal_digits "0042" "count" eq_refl _ _ _ _);
      try discriminate. simpl. lia.
  - refine (proj1 (proj2 process_value_reads_decimal_digits) 2024 "year" _ _);
      [lia | vm_compute; lia].
Defined.

End Reading.

(* ===================================================================== *)
(** ** Beyond the claims: the run and its report *)

Section Runs.
Import PyStr csv_importer View Aux.

Lemma In_keys_set_inv {V : Type} k k' (v : V) d :
  In k' (Dict.keys (Dict.set k v d)) -> k' = k \/ In k' (Dict.keys d).
Proof.
  rewrite keys_set. destruct (Dict.mem k d); auto.
  intros H. apply in_app_or in H as [H | [<- | []]]; auto.
Qed.

Lemma keys_merge {V : Type} k (kvs d : Dict.dict V) :
  In k (Dict.keys (Dict.merge d kvs)) <-> In k (Dict.keys d) \/ In k (map fst kvs).
Proof.
  unfold Dict.merge. revert d. induction kvs as [|[k0 v0] kvs IH]; intros d; simpl.
  - tauto.
  - rewrite IH. split.
    + intros [H | H]; auto. apply In_keys_set_inv in H as [-> | H]; auto.
    + intros [H | [<- | H]]; auto.
      * left. now apply In_keys_set.
      * left. apply get_In_keys. now rewrite get_set_same.
Qed.

Lemma get_merge_inv {V : Type} k v (kvs d : Dict.dict V) :
  Dict.get k (Dict.merge d kvs) = Some v -> In (k, v) kvs \/ Dict.get k d = Some v.
Proof.
  unfold Dict.merge. revert d. induction kvs as [|[k0 v0] kvs IH]; intros d H; simpl in *.
  - now right.
  - apply IH in H as [H | H]; auto.
    destruct (string_dec k0 k) as [->|Hne].
    + rewrite get_set_same in H. injection H as ->. auto.
    + rewrite get_set_other in H by assumption. auto.
Qed.

Lemma NoDup_keys_merge {V : Type} (kvs d : Dict.dict V) :
  NoDup (Dict.keys d) -> NoDup (Dict.keys (Dict.merge d kvs)).
Proof.
  unfold Dict.merge. revert d. induction kvs as [|[k0 v0] kvs IH]; intros d H; simpl; auto.
  apply IH. now apply NoDup_keys_set.
Qed.

(** X7. The available schemas are the schema files by name: a name is
    available exactly when some file has it as its stem, the path found for
    a name is that of a file with this stem, no name is listed twice, and
    when the stems are distinct the names are listed in the order of the
    files. This holds for the importer and for the template generator. *)
Theorem available_schemas_are_the_schema_files :
  (forall (w : world) name,
      Dict.mem name (get_available_schemas w) = true <-> In name (map fst (schema_files w)))
  /\ (forall (w : world) name path,
         Dict.get name (get_available_schemas w) = Some path ->
         In (name, path) (schema_files w))
  /\ (forall w : world, NoDup (Dict.keys (get_available_schemas w)))
  /\ (forall w : world, NoDup (map fst (schema_files w)) ->
                        get_available_schemas w = schema_files w)
  /\ (forall (w : csv_template_generator.world) name,
         Dict.mem name (csv_template_generator.get_available_schemas w) = true
         <-> In name (map fst (csv_template_generator.schema_files w)))
  /\ (forall (w : csv_template_generator.world) name path,
         Dict.get name (csv_template_generator.get_available_schemas w) = Some path ->
         In (name, path) (csv_template_generator.schema_files w))
  /\ (forall w : csv_template_generator.world,
         NoDup (Dict.keys (csv_template_generator.get_available_schemas w)))
  /\ (forall w : csv_template_generator.world,
         NoDup (map fst (csv_template_generator.schema_files w)) ->
         csv_template_generator.get_available_schemas w
         = csv_template_generator.schema_files w).
Proof.
  assert (Hmem : forall (kvs : Dict.dict string) name,
             Dict.mem name (Dict.merge [] kvs) = true <-> In name (map fst kvs)).
  { intros kvs name. unfold Dict.mem.
    pose proof (keys_merge name kvs []) as Hk. simpl in Hk.
    pose proof (get_In_keys name (Dict.merge [] kvs)) as Hg.
    destruct (Dict.get name (Dict.merge [] kvs)); split; intros H; auto.
    - assert (Hin : In name (Dict.keys (Dict.merge [] kvs)))
        by (apply Hg; discriminate).
      apply Hk in Hin. tauto.
    - discriminate.
    - exfalso. assert (Hin : In name (Dict.keys (Dict.merge [] kvs))) by (apply Hk; auto).
      apply Hg in Hin. congruence. }
  assert (Hget : forall (kvs : Dict.dict string) name path,
             Dict.get name (Dict.merge [] kvs) = Some path -> In (name, path) kvs).
  { intros kvs name path H. apply get_merge_inv in H as [H | H]; [auto | discriminate]. }
  split; [|split; [|split; [|split; [|split; [|split; [|split]]]]]].
  - intros w name. apply (Hmem (schema_files w) name).
  - intros w name path. apply (Hget (schema_files w)).
  - intros w. apply (NoDup_keys_merge (schema_files w) []). constructor.
  - intros w H. apply (merge_fresh (schema_files w) []). exact H.
  - intros w name. apply (Hmem (csv_template_generator.schema_files w) name).
  - intros w name path. apply (Hget (csv_template_generator.schema_files w)).
  - intros w. apply (NoDup_keys_merge (csv_template_generator.schema_files w) []).
    constructor.
  - intros w H. apply (merge_fresh (csv_template_generator.schema_files w) []). exact H.
Qed.

Lemma available_schemas_are_the_schema_files_witness :
  In ("place", "schemas/v1/place.json") (schema_files Sample.world)
  /\ get_available_schemas Sample.world = schema_files Sample.world
  /\ csv_template_generator.get_available_schemas Sample.template_world
     = csv_template_generator.schema_files Sample.template_world.
Proof.
  split; [|split].
  - exact (proj1 (proj2 available_schemas_are_the_schema_files)
             Sample.world "place" "schemas/v1/place.json" eq_refl).
  - apply (proj1 (proj2 (proj2 (proj2 available_schemas_are_the_schema_files)))).
    repeat constructor; simpl; intuition discriminate.
  - apply (proj2 (proj2 (proj2 (proj2 (proj2 (proj2
             (proj2 available_schemas_are_the_schema_files))))))).
    repeat constructor; simpl; intuition discriminate.
Defined.

(** The text of a report without invalid rows. *)
Lemma report_without_invalid_rows repr_float r :
  invalid r = 0 ->
  get_validation_report repr_float r
  = Some (join PyFmt.newline
            ["Validation Report"; "==================";
             "Total rows: " ++ PyFmt.str_nat (total r);
             "Valid: " ++ PyFmt.str_nat (valid r);
             "Invalid: 0"; ""]).
Proof. intros H. unfold get_validation_report, report_lines. now rewrite H. Qed.

(** X8. A file without data rows gives, for a known schema, the report with
    every count at zero and both lists empty; the schema file is not even
    loaded, so this holds also when it cannot be loaded. The text of a
    report whose [invalid] count is zero is the five heading lines and a
    closing line break, with no section of invalid entries, whatever
    [invalid_items] holds. *)
Theorem empty_file_gives_the_empty_report
        (w : world) (file_path schema_name schema_path : string)
        (repr_float : pyfloat -> string) :
  Dict.get schema_name (get_available_schemas w) = Some schema_path ->
  dict_reader w file_path = Ok [] ->
  import_and_validate_csv w file_path schema_name
  = Ok {| total := 0; valid := 0; invalid := 0; valid_items := []; invalid_items := [] |}
  /\ (forall r, invalid r = 0 ->
        get_validation_report repr_float r
        = Some ("Validation Report" ++ PyFmt.newline
                ++ "==================" ++ PyFmt.newline
                ++ "Total rows: " ++ PyFmt.str_nat (total r) ++ PyFmt.newline
                ++ "Valid: " ++ PyFmt.str_nat (valid r) ++ PyFmt.newline
                ++ "Invalid: 0" ++ PyFmt.newline)).
Proof.
  intros Hschema Hread. split.
  - unfold import_and_validate_csv, read_csv_file. now rewrite Hschema, Hread.
  - intros r Hr. rewrite report_without_invalid_rows by assumption.
    reflexivity.
Qed.

Lemma empty_file_gives_the_empty_report_witness :
  import_and_validate_csv
    {| schema_files := [("event", "event.json")];
       dict_reader := fun _ => Ok [];
       json_load := fun _ => Err (OSError "Permission denied");
       validate := Sample.requires_name |} "empty.csv" "event"
  = Ok {| total := 0; valid := 0; invalid := 0; valid_items := []; invalid_items := [] |}.
Proof.
  exact (proj1 (empty_file_gives_the_empty_report
                  {| schema_files := [("event", "event.json")];
                     dict_reader := fun _ => Ok [];
                     json_load := fun _ => Err (OSError "Permission denied");
                     validate := Sample.requires_name |}
                  "empty.csv" "event" "event.json" (fun _ => "") eq_refl eq_refl)).
Defined.

Lemma enumerate_from_app {A : Type} (xs ys : list A) start :
  enumerate_from start (xs ++ ys)%list
  = (enumerate_from start xs ++ enumerate_from (start + length xs) ys)%list.
Proof.
  revert start. induction xs as [|x xs IH]; intros start; simpl.
  - now rewrite Nat.add_0_r.
  - rewrite IH. do 3 f_equal. lia.
Qed.

Lemma map_result_stops {A B : Type} (f : A -> result B) xs y ys e :
  (forall x, In x xs -> exists b, f x = Ok b) -> f y = Err e ->
  map_result f (xs ++ y :: ys)%list = Err e.
Proof.
  intros Hxs Hy. induction xs as [|x xs IH]; simpl.
  - now rewrite Hy.
  - destruct (Hxs x (or_introl eq_refl)) as [b ->]. cbn [bind].
    rewrite IH; auto. intros; apply Hxs; now right.
Qed.

Lemma judged_ok_judge w schema_path i row :
  judged_ok w schema_path row -> exists vo, judge w schema_path (i, row) = Ok vo.
Proof.
  intros (nested & Ht & Hv). unfold judge. rewrite Ht. cbn [bind].
  rewrite validate_against_schema_run.
  destruct Hv as [-> | [msg ->]]; cbn [bind]; eauto.
Qed.

Lemma row_raises_judge w schema_path i row e :
  row_raises w schema_path row e -> judge w schema_path (i, row) = Err e.
Proof.
  intros [Ht | (nested & Ht & Hv & He)]; unfold judge; rewrite Ht; cbn [bind]; auto.
  rewrite validate_against_schema_run, Hv.
  destruct e; auto. exfalso. now apply (He msg).
Qed.

(** X9. The run ends at the first row that raises: when the rows before it
    are judged without an exception, the exception of that row (from the
    transcoding, or from the validator when it is no [ValidationError]) is
    what [import_and_validate_csv] raises, and the rows after it do not
    matter. *)
Theorem import_raises_the_first_exception
        (w : world) (file_path schema_name schema_path : string)
        (before after : list (Dict.dict string)) (row : Dict.dict string) (e : exn) :
  Dict.get schema_name (get_available_schemas w) = Some schema_path ->
  read_csv_file w file_path = Ok (before ++ row :: after)%list ->
  (forall r, In r before -> judged_ok w schema_path r) ->
  row_raises w schema_path row e ->
  import_and_validate_csv w file_path schema_name = Err e.
Proof.
  intros Hschema Hread Hbefore Hrow.
  rewrite import_unfold, Hschema, Hread. cbn [bind].
  unfold enumerate. rewrite enumerate_from_app. cbn [enumerate_from].
  rewrite (map_result_stops (judge w schema_path) _ _ _ e); auto.
  - intros [i r] Hin. apply enumerate_from_In in Hin. simpl in Hin.
    apply judged_ok_judge. now apply Hbefore.
  - now apply row_raises_judge.
Qed.

Lemma import_raises_the_first_exception_witness :
  import_and_validate_csv
    {| schema_files := [("event", "event.json")];
       dict_reader := fun _ => Ok [[("id", CellStr "e1")];
                                   [("id", CellStr "e2"); ("nameFr", CellStr "B")]];
       json_load := fun _ => Ok JNull;
       validate := fun instance _ =>
                     match instance with
                     | VDict [_] => Err (ValidationError "'nameFr' is a required property")
                     | _ => Err (SchemaError "None is not a valid schema")
                     end |} "rows.csv" "event"
  = Err (SchemaError "None is not a valid schema").
Proof.
  refine (import_raises_the_first_exception
            {| schema_files := [("event", "event.json")];
               dict_reader := fun _ => Ok [[("id", CellStr "e1")];
                                           [("id", CellStr "e2"); ("nameFr", CellStr "B")]];
               json_load := fun _ => Ok JNull;
               validate := fun instance _ =>
                             match instance with
                             | VDict [_] =>
                                 Err (ValidationError "'nameFr' is a required property")
                             | _ => Err (SchemaError "None is not a valid schema")
                             end |}
            "rows.csv" "event" "event.json"
            [[("id", "e1")]] [] [("id", "e2"); ("nameFr", "B")] _ eq_refl eq_refl _ _).
  - intros r [<- | []]. eexists. split; [reflexivity|]. right. eexists. reflexivity.
  - right. eexists. split; [reflexivity|]. split; [reflexivity|]. discriminate.
Defined.

(** *** Row order *)

Lemma StronglySorted_row_numbers start len :
  StronglySorted lt (map (fun i => i + 2) (seq start len)).
Proof.
  revert start. induction len as [|len IH]; intros start; simpl; constructor; auto.
  apply Forall_forall. intros n Hn. apply in_map_iff in Hn as (i & <- & Hi).
  apply in_seq in Hi. lia.
Qed.

Lemma StronglySorted_filter {A : Type} (key : A -> nat) (keep : A -> bool) l :
  StronglySorted lt (map key l) -> StronglySorted lt (map key (filter keep l)).
Proof.
  induction l as [|x l IH]; simpl; intros H; [constructor|].
  apply StronglySorted_inv in H as [Hs Hf].
  destruct (keep x); auto. simpl. constructor; auto.
  apply Forall_forall. intros n Hn. apply in_map_iff in Hn as (y & <- & Hy).
  apply filter_In in Hy as [Hy _].
  rewrite Forall_forall in Hf. apply Hf. now apply in_map.
Qed.

(** X10. In a report of [import_and_validate_csv] the entries of
    [valid_items] and those of [invalid_items] stand in the order of the
    rows: in each list the row numbers increase strictly. *)
Theorem report_lists_keep_row_order
        (w : world) (file_path schema_name : string) (rep : report) :
  import_and_validate_csv w file_path schema_name = Ok rep ->
  StronglySorted lt (map item_row (valid_items rep))
  /\ StronglySorted lt (map item_row (invalid_items rep)).
Proof.
  intros H. apply import_ok_inv in H as (sp & csv_data & outs & _ & _ & Houts & ->).
  destruct (fold_record_outcome outs (fresh_report csv_data)) as (_ & _ & _ & Hvs & His).
  cbv zeta in *. simpl in Hvs, His. rewrite Hvs, His, !map_map.
  pose proof (judge_row_numbers _ _ _ _ _ Houts) as Hrows.
  split; apply (StronglySorted_filter (fun vo => item_row (snd vo)));
    rewrite Hrows; apply StronglySorted_row_numbers.
Qed.

Lemma report_lists_keep_row_order_witness :
  exists rep,
    import_and_validate_csv Sample.world "events.csv" "event" = Ok rep
    /\ StronglySorted lt (map item_row (valid_items rep))
    /\ StronglySorted lt (map item_row (invalid_items rep)).
Proof.
  destruct (import_and_validate_csv Sample.world "events.csv" "event") as [rep|e] eqn:E;
    [|discriminate E].
  exists rep. split; [reflexivity|].
  exact (report_lists_keep_row_order Sample.world "events.csv" "event" rep E).
Defined.

(** *** The text of the report *)

Lemma map_result_In {A B : Type} (f : A -> result B) xs ys y :
  map_result f xs = Ok ys -> In y ys -> exists x, In x xs /\ f x = Ok y.
Proof.
  revert ys. induction xs as [|x xs IH]; intros ys H Hy; simpl in H.
  - injection H as <-. contradiction.
  - destruct (f x) as [b|] eqn:E; [|discriminate]. cbn [bind] in H.
    destruct (map_result f xs) as [bs|]; [|discriminate]. injection H as <-.
    destruct Hy as [<- | Hy].
    + exists x. split; [now left | assumption].
    + destruct (IH bs eq_refl Hy) as (x' & Hx' & Hf). exists x'.
      split; [now right | assumption].
Qed.

Lemma judge_invalid_has_error w schema_path entry vo :
  judge w schema_path entry = Ok vo -> fst vo = false ->
  exists msg, item_error (snd vo) = Some msg.
Proof.
  destruct entry as [i row]. unfold judge.
  destruct (transform_flat_to_nested row) as [nested|]; [|discriminate]. cbn [bind].
  destruct (validate_against_schema_cases w schema_path nested) as [H | [[msg H] | [e H]]];
    rewrite H; cbn [bind]; intros E; try discriminate; injection E as <-; simpl.
  - discriminate.
  - eauto.
Qed.

Lemma entries_lines_complete repr_float items :
  (forall o, In o items -> exists error, item_error o = Some error) ->
  exists lines,
    entries_lines repr_float items = Some lines
    /\ length lines = 3 * length items
    /\ forall o error, In o items -> item_error o = Some error ->
         In ("Row " ++ PyFmt.str_nat (item_row o) ++ " (ID: "
               ++ PyFmt.str_value repr_float (item_id o) ++ ")") lines
         /\ In ("Error: " ++ error) lines.
Proof.
  induction items as [|item items IH]; intros H.
  - exists []. repeat split; contradiction.
  - destruct (H item (or_introl eq_refl)) as [error Herror].
    destruct IH as (lines & Hlines & Hlen & Hin); [intros; apply H; now right|].
    eexists. cbn [entries_lines]. unfold entry_lines. rewrite Herror, Hlines.
    split; [reflexivity|]. split; [simpl; lia|].
    intros o error' [<- | Ho] Ho'.
    + rewrite Herror in Ho'. injection Ho' as <-. simpl. auto.
    + destruct (Hin o error' Ho Ho'). simpl. auto 6.
Qed.

Lemma report_tallies_agree_lengths w file_path schema_name rep :
  import_and_validate_csv w file_path schema_name = Ok rep ->
  length (invalid_items rep) = invalid rep.
Proof.
  intros H. apply import_ok_inv in H as (sp & csv_data & outs & _ & _ & _ & ->).
  destruct (fold_record_outcome outs (fresh_report csv_data)) as (_ & _ & Hi & _ & His).
  cbv zeta in *. simpl in Hi, His. now rewrite Hi, His, length_map.
Qed.

(** X11. For a report of [import_and_validate_csv], [get_validation_report]
    raises nothing (every invalid entry has its error text) and gives the
    lines joined by line breaks: the six heading lines, and, when some row
    is invalid, the two lines that open the section and three lines for each
    invalid entry, among them the line with its row number and id and the
    line with its error text. *)
Theorem validation_report_lists_the_invalid_rows
        (w : world) (file_path schema_name : string) (rep : report)
        (repr_float : pyfloat -> string) :
  import_and_validate_csv w file_path schema_name = Ok rep ->
  exists lines,
    report_lines repr_float rep = Some lines
    /\ get_validation_report repr_float rep = Some (join PyFmt.newline lines)
    /\ length lines = (if Nat.eqb (invalid rep) 0 then 6 else 8 + 3 * invalid rep)
    /\ forall o, In o (invalid_items rep) ->
         exists error,
           item_error o = Some error
           /\ In ("Row " ++ PyFmt.str_nat (item_row o) ++ " (ID: "
                    ++ PyFmt.str_value repr_float (item_id o) ++ ")") lines
           /\ In ("Error: " ++ error) lines.
Proof.
  intros H.
  pose proof (report_tallies_agree_lengths w file_path schema_name rep H) as Hlen.
  apply import_ok_inv in H as (sp & csv_data & outs & _ & _ & Houts & ->).
  set (rep := fold_left record_outcome outs (fresh_report csv_data)) in *.
  assert (Herrors : forall o, In o (invalid_items rep) ->
                              exists error, item_error o = Some error).
  { intros o Ho. subst rep.
    destruct (fold_record_outcome outs (fresh_report csv_data)) as (_ & _ & _ & _ & His).
    cbv zeta in His. simpl in His. rewrite His in Ho.
    apply in_map_iff in Ho as (vo & <- & Hvo). apply filter_In in Hvo as [Hvo Hfst].
    destruct (map_result_In _ _ _ _ Houts Hvo) as (entry & _ & Hjudge).
    eapply judge_invalid_has_error; eauto. now destruct (fst vo). }
  destruct (entries_lines_complete repr_float _ Herrors) as (lines & Hlines & Hcount & Hin).
  unfold get_validation_report, report_lines. rewrite Hlines.
  destruct (invalid rep) as [|n] eqn:Hinv.
  - eexists. split; [reflexivity|]. split; [reflexivity|]. split; [reflexivity|].
    intros o Ho. destruct (invalid_items rep); [contradiction | discriminate].
  - eexists. split; [reflexivity|]. split; [reflexivity|]. split.
    + simpl. rewrite Hcount, Hlen. lia.
    + intros o Ho. destruct (Herrors o Ho) as [error Herror]. exists error.
      destruct (Hin o error Ho Herror). split; [assumption|]. simpl. auto 12.
Qed.

Lemma validation_report_lists_the_invalid_rows_witness :
  exists rep lines,
    import_and_validate_csv Sample.world "events.csv" "event" = Ok rep
    /\ report_lines (fun _ => EmptyString) rep = Some lines
    /\ lines = ["Validation Report"; "=================="; "Total rows: 2"; "Valid: 1";
                "Invalid: 1"; ""; "Invalid Entries"; "--------------";
                "Row 3 (ID: event456)"; "Error: 'nameFr' is a required property"; ""].
Proof.
  destruct (import_and_validate_csv Sample.world "events.csv" "event") as [rep|e] eqn:E;
    [|discriminate E].
  destruct (validation_report_lists_the_invalid_rows
              Sample.world "events.csv" "event" rep (fun _ => EmptyString) E)
    as (lines & Hlines & _).
  exists rep, lines. injection E as <-.
  split; [reflexivity|]. split; [exact Hlines|].
  injection Hlines as <-. reflexivity.
Defined.

End Runs.

(* ===================================================================== *)
(** ** Beyond the claims: the flattener and the template *)

Section Templates.
Import PyStr csv_template_generator View Aux.

(** X12. [generate_template] for a name that is not among the available
    schemas raises [ValueError] with the same message as the importer, the
    requested name and the list of the available names; no schema file is
    loaded and nothing is written, whatever loading and writing would do.
    The two wrappers raise it when their schema is missing. *)
Theorem generate_template_rejects_unknown_schema (w : world) (schema_name : string) :
  Dict.mem schema_name (get_available_schemas w) = false ->
  let message :=
    "Unknown schema: " ++ schema_name ++ ". Available schemas: "
      ++ repr_list (Dict.keys (get_available_schemas w)) in
  generate_template w schema_name = Err (ValueError message)
  /\ (forall loader writer,
        generate_template {| schema_files := schema_files w; json_load := loader;
                             csv_text := writer |} schema_name
        = Err (ValueError message))
  /\ (schema_name = "event" -> generate_event_template w = Err (ValueError message))
  /\ (schema_name = "place" -> generate_place_template w = Err (ValueError message)).
Proof.
  intros Hmem message. unfold Dict.mem in Hmem.
  assert (H : forall w', schema_files w' = schema_files w ->
                         generate_template w' schema_name = Err (ValueError message)).
  { intros w' Hw. unfold generate_template, message, get_available_schemas in *.
    rewrite Hw. destruct (Dict.get schema_name _); [discriminate | reflexivity]. }
  split; [now apply H | split; [intros; now apply H | split]].
  - intros ->. now apply H.
  - intros ->. now apply H.
Qed.

Lemma generate_template_rejects_unknown_schema_witness :
  generate_template Sample.template_world "nonexistent_schema"
  = Err (ValueError "Unknown schema: nonexistent_schema. Available schemas: ['place']")
  /\ generate_event_template Sample.template_world
     = Err (ValueError "Unknown schema: event. Available schemas: ['place']").
Proof.
  split.
  - exact (proj1 (generate_template_rejects_unknown_schema
                    Sample.template_world "nonexistent_schema" eq_refl)).
  - exact (proj1 (proj2 (proj2 (generate_template_rejects_unknown_schema
                                  Sample.template_world "event" eq_refl))) eq_refl).
Defined.

Lemma plain_leaf_step recur parent_key flattened key value :
  plain_leaf value = true ->
  flatten_property recur parent_key flattened (key, value)
  = Ok (Dict.set (if is_empty parent_key then key else parent_key ++ "." ++ key)
                 value flattened).
Proof.
  destruct value; try discriminate. simpl. intros H.
  apply andb_true_iff in H as [Hp Hi].
  apply negb_true_iff in Hp. apply negb_true_iff in Hi.
  unfold flatten_property, has_key_and_type. simpl. now rewrite Hp, Hi.
Qed.

(** X13. A schema whose properties all are plain leaves (objects with
    neither ["properties"] nor ["items"]) is flattened to its own
    properties: the same names, in the order they are declared, each with
    its schema; these names are the headers of the template. *)
Theorem flat_schema_is_flattened_to_itself
        (schema : json) (entries : list (string * json)) (schema_name : string) :
  py_get_or_empty schema "properties" = Ok (JObj entries) ->
  (forall kv, In kv entries -> plain_leaf (snd kv) = true) ->
  NoDup (map fst entries) ->
  _flatten_schema schema "" [] = Ok entries
  /\ exists sample_row,
       template_parts schema schema_name = Ok (map fst entries, sample_row).
Proof.
  intros Hprops Hleaves Hkeys.
  assert (H : _flatten_schema schema "" [] = Ok entries).
  { rewrite _flatten_schema_unfold, Hprops. cbn [bind py_items].
    assert (Hloop : forall acc,
      for_each (flatten_property _flatten_schema "") entries acc
      = Ok (Dict.merge acc entries)).
    { clear Hprops Hkeys. induction entries as [|[k v] entries IH]; intros acc; auto.
      cbn [for_each]. rewrite plain_leaf_step by (apply (Hleaves (k, v)); now left).
      cbn [bind is_empty]. rewrite IH by (intros; apply Hleaves; now right).
      reflexivity. }
    rewrite Hloop. f_equal. now apply merge_fresh. }
  split; [exact H|].
  unfold template_parts. rewrite H. cbn [bind]. eexists. reflexivity.
Qed.

Lemma flat_schema_is_flattened_to_itself_witness :
  _flatten_schema
    (JObj [("type", JStr "object");
           ("properties", JObj [("sourceId", JObj [("type", JStr "string")]);
                                ("capacity", JObj [("type", JStr "integer")])])]) "" []
  = Ok [("sourceId", JObj [("type", JStr "string")]);
        ("capacity", JObj [("type", JStr "integer")])].
Proof.
  refine (proj1 (flat_schema_is_flattened_to_itself
                   (JObj [("type", JStr "object");
                          ("properties",
                           JObj [("sourceId", JObj [("type", JStr "string")]);
                                 ("capacity", JObj [("type", JStr "integer")])])])
                   [("sourceId", JObj [("type", JStr "string")]);
                    ("capacity", JObj [("type", JStr "integer")])]
                   "place" eq_refl _ _)).
  - intros kv [<- | [<- | []]]; reflexivity.
  - repeat constructor; simpl; intuition discriminate.
Defined.

(** *** Paths stay under their parent *)

Lemma is_empty_true s : is_empty s = true -> s = EmptyString.
Proof. now destruct s. Qed.

Lemma under_new_key parent_key key :
  under parent_key (if is_empty parent_key then key else parent_key ++ "." ++ key).
Proof.
  destruct (is_empty parent_key) eqn:E.
  - left. now apply is_empty_true.
  - right. eauto.
Qed.

Lemma under_below_new_key parent_key key rest :
  under parent_key
        ((if is_empty parent_key then key else parent_key ++ "." ++ key) ++ "." ++ rest).
Proof.
  destruct (is_empty parent_key) eqn:E.
  - left. now apply is_empty_true.
  - right. exists (key ++ "." ++ rest). now rewrite !append_assoc.
Qed.

Lemma under_trans parent_key key path :
  under (if is_empty parent_key then key else parent_key ++ "." ++ key) path ->
  under parent_key path.
Proof.
  destruct (is_empty parent_key) eqn:E.
  - intros _. left. now apply is_empty_true.
  - intros [H | [rest ->]].
    + destruct parent_key; discriminate.
    + right. exists (key ++ "." ++ rest). now rewrite !append_assoc.
Qed.

Lemma within_set parent_key before d k v :
  within parent_key before d -> under parent_key k ->
  within parent_key before (Dict.set k v d).
Proof.
  intros Hd Hk path Hpath. apply In_keys_set_inv in Hpath as [-> | Hpath]; auto.
Qed.

Lemma flatten_property_within recur parent_key before flattened property flattened' :
  (forall v k d d', recur v k d = Ok d' -> within k d d') ->
  within parent_key before flattened ->
  flatten_property recur parent_key flattened property = Ok flattened' ->
  within parent_key before flattened'.
Proof.
  intros Hrecur Hfl. destruct property as [key value]. unfold flatten_property.
  destruct (has_key_and_type "properties" "object" value) as [[]|]; cbn [bind];
    [| | discriminate].
  - intros H path Hpath. apply Hrecur in H. apply H in Hpath as [Hpath | Hpath]; auto.
    right. eapply under_trans; eauto.
  - destruct (has_key_and_type "items" "array" value) as [[]|]; cbn [bind];
      [| intros H; injection H as <-; apply within_set; auto using under_new_key
       | discriminate].
    destruct (py_get_or_empty value "items") as [items|]; cbn [bind]; [|discriminate].
    destruct (has_key_and_type "properties" "object" items) as [[]|]; cbn [bind];
      [| | discriminate].
    + destruct (py_get_or_empty items "properties") as [item_properties|]; cbn [bind];
        [|discriminate].
      destruct (py_items item_properties) as [item_entries|]; cbn [bind]; [|discriminate].
      intros H. injection H as <-.
      apply (fold_left_preserves (within parent_key before)); auto.
      intros d item Hd. apply within_set; auto.
      apply (under_below_new_key parent_key key (fst item)).
    + destruct (String.eqb key "openingHours"); intros H; injection H as <-.
      * repeat (apply within_set; [|apply (under_below_new_key parent_key key)]).
        exact Hfl.
      * apply within_set; auto using under_new_key.
Qed.

Lemma flatten_within_within calls schema parent_key flattened flattened' :
  flatten_within calls schema parent_key flattened = Ok flattened' ->
  within parent_key flattened flattened'.
Proof.
  revert schema parent_key flattened flattened'.
  induction calls as [|calls IH]; intros schema parent_key flattened flattened';
    [discriminate|].
  cbn [flatten_within].
  destruct (py_get_or_empty schema "properties") as [properties|]; cbn [bind];
    [|discriminate].
  destruct (py_items properties) as [entries|]; cbn [bind]; [|discriminate].
  apply (for_each_preserves (within parent_key flattened)).
  - intros property fl fl' _ Hfl. apply flatten_property_within; auto.
  - intros path Hpath. now left.
Qed.

(** X14. Flattening under a parent path writes under that path only: every
    path of the result that was not there before starts with the parent path
    and a dot. So the paths of a nested object all carry the name of the
    object, and flattening one property cannot touch the paths of
    another. *)
Theorem flattened_paths_stay_under_the_parent
        (schema : json) (parent_key : string) (flattened flattened' : Dict.dict json) :
  _flatten_schema schema parent_key flattened = Ok flattened' ->
  forall path,
    In path (Dict.keys flattened') ->
    In path (Dict.keys flattened)
    \/ parent_key = EmptyString
    \/ exists rest, path = parent_key ++ "." ++ rest.
Proof.
  intros H path Hpath. unfold _flatten_schema in H.
  apply flatten_within_within in H. exact (H path Hpath).
Qed.

Lemma flattened_paths_stay_under_the_parent_witness :
  _flatten_schema
    (JObj [("type", JStr "object");
           ("properties", JObj [("city", JObj [("type", JStr "string")]);
                                ("geo", JObj [("type", JStr "object");
                                              ("properties",
                                               JObj [("lat", JObj [("type", JStr "number")])])])])])
    "address" [("id", JObj [("type", JStr "string")])]
  = Ok [("id", JObj [("type", JStr "string")]);
        ("address.city", JObj [("type", JStr "string")]);
        ("address.geo.lat", JObj [("type", JStr "number")])]
  /\ (In "address.geo.lat" ["id"]
      \/ "address" = EmptyString \/ exists rest, "address.geo.lat" = "address" ++ "." ++ rest).
Proof.
  split; [reflexivity|].
  refine (flattened_paths_stay_under_the_parent
            (JObj [("type", JStr "object");
                   ("properties",
                    JObj [("city", JObj [("type", JStr "string")]);
                          ("geo", JObj [("type", JStr "object");
                                        ("properties",
                                         JObj [("lat", JObj [("type", JStr "number")])])])])])
            "address" [("id", JObj [("type", JStr "string")])]
            [("id", JObj [("type", JStr "string")]);
             ("address.city", JObj [("type", JStr "string")]);
             ("address.geo.lat", JObj [("type", JStr "number")])]
            eq_refl "address.geo.lat" _).
  simpl. tauto.
Defined.

(** X15. A property whose schema is a JSON boolean, number or [null] (a
    boolean schema is legal JSON Schema) makes the flattener raise
    [TypeError], once the properties before it are flattened; the template
    is then not produced. *)
Theorem scalar_property_schema_raises_TypeError
        (schema : json) (before after : list (string * json)) (key : string) (v : json)
        (flattened : Dict.dict json) (schema_name : string) :
  py_get_or_empty schema "properties" = Ok (JObj (before ++ (key, v) :: after)%list) ->
  _flatten_schema (JObj [("properties", JObj before)]) "" [] = Ok flattened ->
  is_scalar v = true ->
  _flatten_schema schema "" [] = Err TypeError
  /\ template_parts schema schema_name = Err TypeError.
Proof.
  intros Hprops Hbefore Hv.
  assert (H : _flatten_schema schema "" [] = Err TypeError).
  { rewrite _flatten_schema_unfold in Hbefore.
    cbn [py_get_or_empty py_get Dict.get String.eqb Ascii.eqb Bool.eqb bind py_items]
      in Hbefore.
    rewrite _flatten_schema_unfold, Hprops. cbn [bind py_items].
    rewrite for_each_app, Hbefore. cbn [bind for_each].
    destruct v; try discriminate; reflexivity. }
  split; [exact H|]. unfold template_parts. now rewrite H.
Qed.

Lemma scalar_property_schema_raises_TypeError_witness :
  _flatten_schema
    (JObj [("properties", JObj [("id", JObj [("type", JStr "string")]);
                                ("extra", JBool true)])]) "" []
  = Err TypeError.
Proof.
  exact (proj1 (scalar_property_schema_raises_TypeError
                  (JObj [("properties", JObj [("id", JObj [("type", JStr "string")]);
                                              ("extra", JBool true)])])
                  [("id", JObj [("type", JStr "string")])] [] "extra" (JBool true)
                  [("id", JObj [("type", JStr "string")])] "event"
                  eq_refl eq_refl eq_refl)).
Defined.

(** X16. A schema without the key ["properties"] is flattened to nothing:
    the paths are left as they were, and its template has no header. A
    schema that is not an object, or whose ["properties"] is not an object,
    raises [AttributeError]. *)
Theorem schema_without_properties_has_no_paths :
  (forall d parent_key flattened,
      Dict.mem "properties" d = false ->
      _flatten_schema (JObj d) parent_key flattened = Ok flattened)
  /\ (forall d schema_name,
         Dict.mem "properties" d = false ->
         template_parts (JObj d) schema_name = Ok ([], []))
  /\ (forall schema parent_key flattened,
         not_object schema ->
         _flatten_schema schema parent_key flattened = Err AttributeError)
  /\ (forall d properties parent_key flattened,
         Dict.get "properties" d = Some properties ->
         not_object properties ->
         _flatten_schema (JObj d) parent_key flattened = Err AttributeError).
Proof.
  assert (H : forall d parent_key flattened,
             Dict.mem "properties" d = false ->
             _flatten_schema (JObj d) parent_key flattened = Ok flattened).
  { intros d parent_key flattened Hd. rewrite _flatten_schema_unfold.
    unfold py_get_or_empty, py_get, Dict.mem in *.
    now destruct (Dict.get "properties" d). }
  split; [exact H | split; [|split]].
  - intros d schema_name Hd. unfold template_parts. now rewrite H.
  - intros schema parent_key flattened Hs. rewrite _flatten_schema_unfold.
    destruct schema; simpl in Hs; try contradiction; reflexivity.
  - intros d properties parent_key flattened Hd Hp. rewrite _flatten_schema_unfold.
    unfold py_get_or_empty, py_get. rewrite Hd. cbn [bind].
    destruct properties; simpl in Hp; try contradiction; reflexivity.
Qed.

Lemma schema_without_properties_has_no_paths_witness :
  template_parts (JObj [("type", JStr "object"); ("title", JStr "Empty")]) "event"
  = Ok ([], [])
  /\ _flatten_schema (JObj [("properties", JArr [JStr "id"])]) "" [] = Err AttributeError.
Proof.
  split.
  - exact (proj1 (proj2 schema_without_properties_has_no_paths)
             [("type", JStr "object"); ("title", JStr "Empty")] "event" eq_refl).
  - exact (proj2 (proj2 (proj2 schema_without_properties_has_no_paths))
             [("properties", JArr [JStr "id"])] (JArr [JStr "id"]) "" [] eq_refl I).
Defined.

(** *** Arrays of objects *)

Lemma get_merge_other {V : Type} k (kvs d : Dict.dict V) :
  ~ In k (map fst kvs) -> Dict.get k (Dict.merge d kvs) = Dict.get k d.
Proof.
  unfold Dict.merge. revert d. induction kvs as [|[k0 v0] kvs IH]; intros d H; simpl; auto.
  simpl in H. rewrite IH by tauto. apply get_set_other. tauto.
Qed.

Lemma get_merge_distinct {V : Type} k v (kvs d : Dict.dict V) :
  NoDup (map fst kvs) -> In (k, v) kvs -> Dict.get k (Dict.merge d kvs) = Some v.
Proof.
  revert d. induction kvs as [|[k0 v0] kvs IH]; intros d Hnd Hin; [contradiction|].
  simpl in Hnd. inversion Hnd as [|? ? Hk0 Hrest]; subst.
  change (Dict.merge d ((k0, v0) :: kvs)) with (Dict.merge (Dict.set k0 v0 d) kvs).
  destruct Hin as [E | Hin].
  - injection E as -> ->. rewrite get_merge_other by assumption. apply get_set_same.
  - now apply IH.
Qed.

Lemma fold_item_paths new_key (items : list (string * json)) flattened :
  fold_left (fun fl item => Dict.set (new_key ++ "." ++ fst item) (snd item) fl)
            items flattened
  = Dict.merge flattened (map (fun item => (new_key ++ "." ++ fst item, snd item)) items).
Proof.
  unfold Dict.merge. revert flattened.
  induction items as [|item items IH]; intros flattened; simpl; auto.
Qed.

(** X17. An array of objects is flattened one level and no further: for an
    array property whose items are an object with distinct properties, each
    item property gets the single path [<path of the array>.<name>], mapped
    to the schema of the item property as it is (also when that schema is
    itself an object or an array), and no other path changes. The recursive
    call has no part in it. *)
Theorem array_of_objects_is_flattened_one_level
        (recur : json -> string -> Dict.dict json -> result (Dict.dict json))
        (parent_key key : string) (flattened : Dict.dict json)
        (dv di item_props : list (string * json)) :
  Dict.get "type" dv = Some (JStr "array") ->
  Dict.get "items" dv = Some (JObj di) ->
  Dict.get "type" di = Some (JStr "object") ->
  Dict.get "properties" di = Some (JObj item_props) ->
  NoDup (map fst item_props) ->
  exists flattened',
    flatten_property recur parent_key flattened (key, JObj dv) = Ok flattened'
    /\ (forall k v, In (k, v) item_props ->
          Dict.get ((if is_empty parent_key then key else parent_key ++ "." ++ key)
                      ++ "." ++ k) flattened' = Some v)
    /\ (forall path,
          (forall k, In k (map fst item_props) ->
                     path <> (if is_empty parent_key then key else parent_key ++ "." ++ key)
                               ++ "." ++ k) ->
          Dict.get path flattened' = Dict.get path flattened).
Proof.
  intros Htype Hitems Hitype Hprops Hnd.
  set (new_key := if is_empty parent_key then key else parent_key ++ "." ++ key).
  exists (Dict.merge flattened
            (map (fun item => (new_key ++ "." ++ fst item, snd item)) item_props)).
  split; [|split].
  - unfold flatten_property, has_key_and_type, py_get_or_empty, py_in, py_get, Dict.mem.
    rewrite Htype, Hitems.
    assert (E : (present <- Ok (match Dict.get "properties" dv with
                                | Some _ => true | None => false end) ;;
                 (if present then
                    declared <- Ok (Some (JStr "array")) ;;
                    Ok (match declared with
                        | Some t => is_str "object" t | None => false end)
                  else Ok false)) = Ok false)
      by (now destruct (Dict.get "properties" dv)).
    rewrite E. cbn [bind is_str String.eqb Ascii.eqb Bool.eqb].
    rewrite Hprops, Hitype. cbn [bind is_str String.eqb Ascii.eqb Bool.eqb py_items].
    fold new_key. now rewrite fold_item_paths.
  - intros k v Hin. apply get_merge_distinct.
    + rewrite map_map. simpl. clear - Hnd.
      induction item_props as [|[k0 v0] items IH]; simpl; [constructor|].
      inversion Hnd as [|? ? Hk Hd]; subst. constructor; auto.
      intros Hin. apply in_map_iff in Hin as ([k1 v1] & E & Hin). simpl in E.
      apply append_inj_l in E. injection E as ->.
      apply Hk. apply in_map_iff. exists (k0, v1). auto.
    + apply in_map_iff. exists (k, v). auto.
  - intros path Hpath. apply get_merge_other. rewrite map_map. simpl.
    intros Hin. apply in_map_iff in Hin as ([k v] & E & Hin). simpl in E.
    apply (Hpath k); [apply in_map_iff; exists (k, v); auto | now symmetry].
Qed.

Lemma array_of_objects_is_flattened_one_level_witness :
  exists flattened',
    flatten_property _flatten_schema "" [] 
      ("images",
       JObj [("type", JStr "array");
             ("items", JObj [("type", JStr "object");
                             ("properties",
                              JObj [("url", JObj [("type", JStr "string")]);
                                    ("size", JObj [("type", JStr "object");
                                                   ("properties",
                                                    JObj [("width", JObj [])])])])])])
    = Ok flattened'
    /\ Dict.get "images.size" flattened'
       = Some (JObj [("type", JStr "object"); ("properties", JObj [("width", JObj [])])])
    /\ Dict.get "images.size.width" flattened' = None.
Proof.
  destruct (array_of_objects_is_flattened_one_level
              _flatten_schema "" "images" []
              [("type", JStr "array");
               ("items", JObj [("type", JStr "object");
                               ("properties",
                                JObj [("url", JObj [("type", JStr "string")]);
                                      ("size", JObj [("type", JStr "object");
                                                     ("properties",
                                                      JObj [("width", JObj [])])])])])]
              [("type", JStr "object");
               ("properties",
                JObj [("url", JObj [("type", JStr "string")]);
                      ("size", JObj [("type", JStr "object");
                                     ("properties", JObj [("width", JObj [])])])])]
              [("url", JObj [("type", JStr "string")]);
               ("size", JObj [("type", JStr "object");
                              ("properties", JObj [("width", JObj [])])])]
              eq_refl eq_refl eq_refl eq_refl)
    as (flattened' & Hstep & Hget & Hother).
  - repeat constructor; simpl; intuition discriminate.
  - exists flattened'. split; [exact Hstep|]. split.
    + apply (Hget "size"). simpl. tauto.
    + rewrite (Hother "images.size.width"); [reflexivity|].
      intros k [<- | [<- | []]]; discriminate.
Defined.

(** *** Sample values *)

(** X18. In every sample row the example for [id] is the schema name
    followed by [123] and the example for [sourceId] is [partner123]; for a
    schema name other than [event] and [place] only the six common fields
    have an example, every other header gets the empty string. *)
Theorem sample_values_by_schema :
  (forall schema_name, sample_value schema_name "id" = schema_name ++ "123")
  /\ (forall schema_name, sample_value schema_name "sourceId" = "partner123")
  /\ (forall schema_name header,
         schema_name <> "event" -> schema_name <> "place" ->
         ~ In header common_fields ->
         sample_value schema_name header = EmptyString).
Proof.
  assert (Hcases : forall schema_name,
             schema_name = "event" \/ schema_name = "place"
             \/ sample_data schema_name = common_samples schema_name).
  { intros schema_name. unfold sample_data.
    destruct (String.eqb schema_name "event") eqn:E1;
      [left; now apply String.eqb_eq|].
    destruct (String.eqb schema_name "place") eqn:E2;
      [right; left; now apply String.eqb_eq|].
    right. right. reflexivity. }
  split; [|split].
  - intros schema_name. unfold sample_value.
    destruct (Hcases schema_name) as [-> | [-> | ->]]; reflexivity.
  - intros schema_name. unfold sample_value.
    destruct (Hcases schema_name) as [-> | [-> | ->]]; reflexivity.
  - intros schema_name header He Hp Hheader. unfold sample_value.
    destruct (Hcases schema_name) as [-> | [-> | ->]]; try contradiction.
    destruct (Dict.get header (common_samples schema_name)) eqn:E; auto.
    exfalso. apply Hheader.
    assert (Hin : In header (Dict.keys (common_samples schema_name)))
      by (apply get_In_keys; congruence).
    exact Hin.
Qed.

Lemma sample_values_by_schema_witness :
  sample_value "venue" "capacity" = EmptyString
  /\ sample_value "venue" "id" = "venue123".
Proof.
  split.
  - refine (proj2 (proj2 sample_values_by_schema) "venue" "capacity" _ _ _);
      try discriminate. unfold common_fields. simpl. intuition discriminate.
  - exact (proj1 sample_values_by_schema "venue").
Defined.

End Templates.

(* ===================================================================== *)
(** ** Beyond the claims: reading the cells back *)

Section ReadBack.
Import PyStr csv_importer View Aux.

Lemma transform_step_assign nested key value :
  transform_step nested (key, value)
  = assign_path (parts_of key) (process_value value (last (parts_of key) "")) nested.
Proof.
  unfold transform_step, parts_of. destruct (contains key ".") eqn:E; auto.
  now rewrite (split_without_sep _ _ E).
Qed.

Lemma lookup_path_empty q : lookup_path q [] = None.
Proof. destruct q as [|a [|b q]]; reflexivity. Qed.

Lemma lookup_path_cons a q d :
  lookup_path (a :: q) d
  = match q with
    | [] => Dict.get a d
    | _ :: _ => match Dict.get a d with
                | Some (VDict inner) => lookup_path q inner
                | _ => None
                end
    end.
Proof. destruct q; reflexivity. Qed.

(** Assigning along one path leaves what stands at a path that parts ways
    with it. *)
Lemma assign_path_frame p q v d d' :
  assign_path p v d = Ok d' -> diverge p q -> lookup_path q d' = lookup_path q d.
Proof.
  revert q d d'. induction p as [|part rest IH]; intros q d d' H Hq; [contradiction|].
  destruct q as [|b q]; [contradiction|].
  destruct rest as [|part' rest].
  - simpl in H. injection H as <-. destruct Hq as [Hne | [_ []]].
    rewrite !lookup_path_cons, get_set_other by assumption. reflexivity.
  - remember (part' :: rest) as tail eqn:Etail.
    assert (Hstep : forall (A : Type) (x y : A),
               match tail with [] => x | _ :: _ => y end = y)
      by (intros; subst tail; reflexivity).
    simpl in H. rewrite Hstep in H.
    destruct (Dict.mem part d) eqn:Hmem; cbn [negb] in H.
    + destruct (Dict.get part d) as [[| | | | | |inner]|] eqn:Hget; try discriminate.
      destruct (assign_path tail v inner) as [inner'|] eqn:E; try discriminate.
      cbn [bind] in H. injection H as <-.
      rewrite !lookup_path_cons.
      destruct Hq as [Hne | [<- Hq]].
      * now rewrite get_set_other by assumption.
      * rewrite get_set_same, Hget.
        destruct q as [|c q]; [destruct tail; contradiction|].
        eapply IH; eauto.
    + rewrite get_set_same in H.
      destruct (assign_path tail v []) as [inner'|] eqn:E; try discriminate.
      cbn [bind] in H. injection H as <-.
      rewrite !lookup_path_cons.
      destruct Hq as [Hne | [<- Hq]].
      * now rewrite !get_set_other by assumption.
      * rewrite get_set_same. unfold Dict.mem in Hmem.
        destruct (Dict.get part d) eqn:Hget; [discriminate|].
        destruct q as [|c q]; [destruct tail; contradiction|].
        rewrite (IH _ _ _ E Hq). apply lookup_path_empty.
Qed.

Lemma for_each_frame flat q acc nested :
  for_each transform_step flat acc = Ok nested ->
  (forall kv, In kv flat -> diverge (parts_of (fst kv)) q) ->
  lookup_path q nested = lookup_path q acc.
Proof.
  revert acc. induction flat as [|[k v] flat IH]; intros acc H Hq.
  - simpl in H. now injection H as <-.
  - cbn [for_each] in H.
    destruct (transform_step acc (k, v)) as [acc1|] eqn:E; [|discriminate].
    cbn [bind] in H. rewrite (IH acc1 H) by (intros; apply Hq; now right).
    rewrite transform_step_assign in E.
    eapply assign_path_frame; eauto. apply (Hq (k, v)). now left.
Qed.

(** X5. When the keys of a row part ways pairwise (no key is another key or
    a dotted prefix of it) and the row transcodes, every cell can be read
    back from the nested record: following the parts of its key leads to
    the coerced value of the cell. The columns do not disturb each other. *)
Theorem transcoded_cells_can_be_read_back
        (flat : Dict.dict string) (nested : Dict.dict pyval) :
  transform_flat_to_nested flat = Ok nested ->
  ForallOrdPairs (fun earlier later =>
                    diverge (parts_of (fst later)) (parts_of (fst earlier))) flat ->
  forall key value,
    In (key, value) flat ->
    lookup_path (parts_of key) nested
    = Some (process_value value (last (parts_of key) "")).
Proof.
  unfold transform_flat_to_nested. generalize (@nil (string * pyval)) as acc.
  revert nested. induction flat as [|[k v] flat IH]; intros nested acc H Hpairs key value Hin;
    [contradiction|].
  cbn [for_each] in H.
  destruct (transform_step acc (k, v)) as [acc1|] eqn:E; [|discriminate].
  cbn [bind] in H. inversion Hpairs as [|? ? Hhead Htail]; subst.
  destruct Hin as [Ekv | Hin].
  - injection Ekv as -> ->.
    rewrite (for_each_frame flat (parts_of key) acc1 nested H).
    + rewrite transform_step_assign in E.
      eapply assign_path_lookup; eauto. apply split_not_nil.
    + intros kv Hkv. rewrite Forall_forall in Hhead. now apply Hhead.
  - eapply IH; eauto.
Qed.

Lemma transcoded_cells_can_be_read_back_witness :
  lookup_path (parts_of "address.city")
    [("id", VInt 7); ("address", VDict [("street", VStr "Main St"); ("city", VStr "Laval")])]
  = Some (VStr "Laval").
Proof.
  refine (transcoded_cells_can_be_read_back
            [("id", "7"); ("address.street", "Main St"); ("address.city", "Laval")]
            _ eq_refl _ "address.city" "Laval" _).
  - repeat constructor; simpl; intuition discriminate.
  - simpl. tauto.
Defined.

End ReadBack.
